(** * NYC transit ETL pipeline: extraction, validation, feature derivation, merge

    A shallow embedding of [data_extraction.py], [data_transformation.py] and
    the cache loader of [app.py], with the properties of the specification
    stated and proved over it.

    Modelling conventions.
    - A pandas [DataFrame] is an ordered list of column labels and a list of
      rows; a row is a finite map from column label to cell.  A label that is
      missing from a row reads as null.
    - A cell is null (NaN / None / NaT), a number, a string or a timestamp.
      Numbers are exact rationals ([Qc]): the binary64 rounding of pandas is
      abstracted, everything else of the arithmetic is kept.
    - Python exceptions are values of [exn] carried by the [result] monad.
    - Calls to [logger] inside the transformer only print; they are left out.
      The extractor's logging and sleeping are kept as events of a trace. *)

From Stdlib Require Import ZArith QArith Qcanon Qcabs Qround String Ascii List Lia Lqa.
From stdpp Require Import base option list gmap strings numbers sorting.

Open Scope string_scope.
Open Scope list_scope.
Open Scope Z_scope.

(** ** Exceptions and the error monad *)

Inductive exn : Type :=
  | KeyError (key : string)
  | TypeError
  | ValueError
  | AttributeError
  | UnboundLocalError
  | RequestException (msg : string).

Inductive result (A : Type) : Type :=
  | Ok (a : A)
  | Raise (e : exn).
Arguments Ok {A} a.
Arguments Raise {A} e.

#[global] Instance result_ret : MRet result := λ A a, Ok a.
#[global] Instance result_bind : MBind result := λ A B f m,
  match m with Ok a => f a | Raise e => Raise e end.
#[global] Instance result_fmap : FMap result := λ A B f m,
  match m with Ok a => Ok (f a) | Raise e => Raise e end.

Definition is_Ok {A} (r : result A) : Prop := ∃ a, r = Ok a.

(** ** Numbers *)

Definition qz (z : Z) : Qc := Q2Qc (inject_Z z).
Definition qn (n : nat) : Qc := qz (Z.of_nat n).
(** [qd n d] is the decimal literal [n/d]. *)
Definition qd (n : Z) (d : positive) : Qc := Q2Qc (n # d).

Definition Qc_leb (x y : Qc) : bool := bool_decide (x <= y)%Qc.
Definition Qc_ltb (x y : Qc) : bool := bool_decide (x < y)%Qc.

Definition Qc_min (x y : Qc) : Qc := if Qc_leb x y then x else y.
Definition Qc_max (x y : Qc) : Qc := if Qc_leb x y then y else x.

(** [np.clip(x, lo, hi)] is [minimum(maximum(x, lo), hi)]. *)
Definition clip (x lo hi : Qc) : Qc := Qc_min (Qc_max x lo) hi.

(** Rounding to the nearest integer, ties to even, as Python's [round]. *)
Definition round_half_even (q : Qc) : Z :=
  let n := Qnum (this q) in
  let d := Z.pos (Qden (this q)) in
  let f := n / d in
  match (2 * (n mod d)) ?= d with
  | Lt => f
  | Gt => f + 1
  | Eq => if Z.even f then f else f + 1
  end.

(** [round(x, 2)]. *)
Definition round2 (q : Qc) : Qc :=
  Q2Qc (round_half_even (q * qz 100)%Qc # 100).

(** ** Cells, rows, tables *)

Inductive cell : Type :=
  | CNull
  | CNum (q : Qc)
  | CStr (s : string)
  | CDate (t : Z).

#[global] Instance cell_eq_dec : EqDecision cell.
Proof. solve_decision. Defined.

Abbreviation Row := (gmap string cell).

Record DataFrame : Type := mkDF {
  columns : list string;
  rows : list Row
}.

(** [pd.DataFrame()] *)
Definition empty_frame : DataFrame := mkDF [] [].

Definition get (r : Row) (c : string) : cell := default CNull (r !! c).

Definition isnull (v : cell) : bool :=
  match v with CNull => true | _ => false end.

Definition column (df : DataFrame) (c : string) : list cell :=
  (λ r, get r c) <$> rows df.

(** [df.empty]: some axis has length zero. *)
Definition df_empty (df : DataFrame) : bool :=
  match rows df, columns df with
  | [], _ => true
  | _, [] => true
  | _, _ => false
  end.

(** [len(df)] *)
Definition len (df : DataFrame) : nat := length (rows df).

(** [df.dropna(subset=...)]: a label of [subset] that is not a column is a
    [KeyError]; otherwise the rows with a null in one of the [subset]
    columns are removed. *)
Definition dropna (subset : list string) (df : DataFrame) : result DataFrame :=
  match filter (λ c, c ∉ columns df) subset with
  | k :: _ => Raise (KeyError k)
  | [] =>
      Ok (mkDF (columns df)
               (filter (λ r, Forall (λ c, get r c ≠ CNull) subset) (rows df)))
  end.

(** Two rows are the same record when they agree on every column. *)
Definition same_row (cols : list string) (r1 r2 : Row) : Prop :=
  Forall (λ c, get r1 c = get r2 c) cols.

#[global] Instance same_row_dec cols r1 r2 : Decision (same_row cols r1 r2).
Proof. unfold same_row. apply _. Defined.

(** [df.duplicated(keep='first')]: the mask that is set at a row when an
    earlier row is the same record. *)
Fixpoint duplicated_from (cols : list string) (seen rs : list Row) : list bool :=
  match rs with
  | [] => []
  | r :: rs' =>
      bool_decide (Exists (same_row cols r) seen)
        :: duplicated_from cols (seen ++ [r]) rs'
  end.

Definition duplicated (df : DataFrame) : list bool :=
  duplicated_from (columns df) [] (rows df).

(** Boolean indexing [df[~mask]]. *)
Fixpoint drop_masked {A} (mask : list bool) (l : list A) : list A :=
  match mask, l with
  | m :: mask', x :: l' =>
      if m then drop_masked mask' l' else x :: drop_masked mask' l'
  | _, _ => []
  end.

(** [df.drop_duplicates(keep='first')] *)
Definition drop_duplicates (df : DataFrame) : DataFrame :=
  mkDF (columns df) (drop_masked (duplicated df) (rows df)).

(** [mask.sum()] *)
Definition count_true (mask : list bool) : nat :=
  length (filter (λ b, b = true) mask).

(** Comparison of two non-null cells of one kind; cells of different kinds
    do not compare ([TypeError]). *)
Definition cell_leb (a b : cell) : result bool :=
  match a, b with
  | CNum x, CNum y => Ok (Qc_leb x y)
  | CStr x, CStr y => Ok (String.leb x y)
  | CDate x, CDate y => Ok (x <=? y)
  | _, _ => Raise TypeError
  end.

(** [Series.min()] and [Series.max()], nulls skipped; null on an empty or
    all-null series. *)
Fixpoint series_extreme (pick_left : bool → bool) (acc : cell) (l : list cell)
  : result cell :=
  match l with
  | [] => Ok acc
  | CNull :: l' => series_extreme pick_left acc l'
  | v :: l' =>
      match acc with
      | CNull => series_extreme pick_left v l'
      | _ =>
          b ← cell_leb acc v;
          series_extreme pick_left (if pick_left b then acc else v) l'
      end
  end.

Definition series_min (l : list cell) : result cell :=
  series_extreme (λ b, b) CNull l.
Definition series_max (l : list cell) : result cell :=
  series_extreme negb CNull l.

(** ** Quality validator ([DataTransformer.validate_data_quality]) *)

Inductive Status : Type :=
  | PASSED
  | WARNING
  | FAILED_Empty_dataset.

#[global] Instance Status_eq_dec : EqDecision Status.
Proof. solve_decision. Defined.

(** The report dictionary.  A key that the code sets only on some paths is an
    optional field.  The wall-clock [timestamp] entry is not modelled. *)
Record QualityReport : Type := mkReport {
  dataset : string;
  initial_rows : nat;
  missing_columns : option (list string);
  null_counts : option (gmap string nat);
  rows_removed_nulls : option Z;
  duplicates_removed : option nat;
  date_range : option (cell * cell);
  final_rows : option nat;
  rows_removed : option Z;
  quality_score : option Qc;
  status : Status
}.

(** [df.isnull().sum()] as (label, count) pairs in column order. *)
Definition isnull_sum (df : DataFrame) : list (string * nat) :=
  (λ c, (c, length (filter (λ v, v = CNull) (column df c)))) <$> columns df.

Definition sum_nat (l : list nat) : nat := foldr Nat.add 0%nat l.

(** The numbers of a series, nulls dropped. *)
Definition numbers (l : list cell) : list Qc :=
  omap (λ v, match v with CNum q => Some q | _ => None end) l.

(** A cell of a numeric column: a number, or NaN. *)
Definition numeric (v : cell) : bool :=
  match v with CNum _ | CNull => true | _ => false end.

(** [select_dtypes(include=[np.number])]: the columns that hold only numbers
    and nulls. *)
Definition is_numeric_column (df : DataFrame) (c : string) : Prop :=
  Forall (λ v, numeric v = true) (column df c).

#[global] Instance is_numeric_column_dec df c : Decision (is_numeric_column df c).
Proof. unfold is_numeric_column. apply _. Defined.

(** [Series.quantile(p)] with linear interpolation; [None] is NaN. *)
Definition quantile (p : Qc) (l : list cell) : option Qc :=
  let sorted := merge_sort Qcle (numbers l) in
  match sorted with
  | [] => None
  | x0 :: _ =>
      let pos := (qn (length sorted - 1) * p)%Qc in
      let lo := Z.to_nat (Qfloor (this pos)) in
      let frac := (pos - qn lo)%Qc in
      let vlo := nth lo sorted x0 in
      let vhi := nth (S lo) sorted vlo in
      Some (vlo + (vhi - vlo) * frac)%Qc
  end.

(** Step 7: per numeric column, the count of values outside the 1st/99th
    percentile band.  The counts only go to the logger. *)
Definition numeric_outliers (df : DataFrame) : list (string * nat) :=
  (λ c,
     let col := column df c in
     let n :=
       match quantile (qd 1 100) col, quantile (qd 99 100) col with
       | Some q1, Some q99 =>
           length (filter (λ x, Qc_ltb x q1 || Qc_ltb q99 x = true) (numbers col))
       | _, _ => 0%nat
       end in
     (c, n))
  <$> filter (λ c, is_numeric_column df c ∧ c ≠ "date") (columns df).

(** ** State and error monad

    [M S A] is a computation over a mutable state [S] that returns an [A] or
    raises; the state reached when an exception leaves is kept, as the
    mutations made before a Python exception are. *)

Definition M (S A : Type) : Type := S → result A * S.

#[global] Instance M_ret {S} : MRet (M S) := λ A a s, (Ok a, s).
#[global] Instance M_bind {S} : MBind (M S) := λ A B f m s,
  match m s with
  | (Ok a, s') => f a s'
  | (Raise e, s') => (Raise e, s')
  end.

(** A pure, possibly failing step. *)
Definition lift {S A} (r : result A) : M S A := λ s, (r, s).
Definition raise {S A} (e : exn) : M S A := λ s, (Raise e, s).
Definition modify {S} (f : S → S) : M S unit := λ s, (Ok tt, f s).
Definition gets {S A} (f : S → A) : M S A := λ s, (Ok (f s), s).

(** [try: body except Exception as e: handler e] *)
Definition try_except {S A} (body : M S A) (handler : exn → M S A) : M S A :=
  λ s, match body s with
       | (Ok a, s') => (Ok a, s')
       | (Raise e, s') => handler e s'
       end.

(** The transformer object: its [quality_metrics] dictionary. *)
Abbreviation Metrics := (gmap string QualityReport).

Definition validate_data_quality (df : DataFrame) (dataset_name : string)
  : M Metrics DataFrame :=
  let initial_rows := len df in
  (* 1. empty dataset *)
  if df_empty df then
    let quality_report :=
      mkReport dataset_name initial_rows None None None None None None None None
               FAILED_Empty_dataset in
    modify (insert dataset_name quality_report);;
    mret df
  else
    (* 2. schema validation *)
    let required_columns := ["date"] in
    let missing := filter (λ c, c ∉ columns df) required_columns in
    (* 3. null value detection *)
    let nulls := isnull_sum df in
    (* 4. rows with critical nulls *)
    let critical_columns := ["date"] in
    df_cleaned ← lift (dropna critical_columns df);
    let removed_nulls := (Z.of_nat (len df) - Z.of_nat (len df_cleaned))%Z in
    (* 5. full-row duplicates *)
    let duplicates := count_true (duplicated df_cleaned) in
    let df_cleaned :=
      if (0 <? duplicates)%nat then drop_duplicates df_cleaned else df_cleaned in
    (* 6. date range *)
    range ← lift
      (if decide ("date" ∈ columns df_cleaned) then
         date_min ← series_min (column df_cleaned "date");
         date_max ← series_max (column df_cleaned "date");
         mret (Some (date_min, date_max))
       else mret None);
    (* 7. numeric range, diagnostic only *)
    let outliers := numeric_outliers df_cleaned in
    (* final quality score *)
    let final := len df_cleaned in
    let score :=
      if (0 <? initial_rows)%nat
      then (qn final / qn initial_rows * qz 100)%Qc else qz 0 in
    let quality_report :=
      mkReport dataset_name initial_rows
        (match missing with [] => None | _ => Some missing end)
        (if (0 <? sum_nat (nulls.*2))%nat then Some (list_to_map nulls) else None)
        (if (0 <? removed_nulls)%Z then Some removed_nulls else None)
        (if (0 <? duplicates)%nat then Some duplicates else None)
        range
        (Some final)
        (Some (Z.of_nat initial_rows - Z.of_nat final)%Z)
        (Some (round2 score))
        (if Qc_leb (qz 90) score then PASSED else WARNING) in
    modify (insert dataset_name quality_report);;
    mret df_cleaned.

(** ** Calendar fields of a timestamp ([Series.dt])

    A timestamp is a count of nanoseconds since 1970-01-01T00:00. *)

Definition ns_per_day : Z := 86400000000000.

Definition days_of (t : Z) : Z := t / ns_per_day.

(** [.dt.date] followed by [pd.to_datetime]: midnight of the same day. *)
Definition floor_day (t : Z) : Z := days_of t * ns_per_day.

(** Proleptic Gregorian date of a day number: (year, month, day). *)
Definition civil_from_days (z0 : Z) : Z * Z * Z :=
  let z := z0 + 719468 in
  let era := z / 146097 in
  let doe := z - era * 146097 in
  let yoe := (doe - doe / 1460 + doe / 36524 - doe / 146096) / 365 in
  let y := yoe + era * 400 in
  let doy := doe - (365 * yoe + yoe / 4 - yoe / 100) in
  let mp := (5 * doy + 2) / 153 in
  let d := doy - (153 * mp + 2) / 5 + 1 in
  let m := if mp <? 10 then mp + 3 else mp - 9 in
  (if m <=? 2 then y + 1 else y, m, d).

Definition days_from_civil (y0 m d : Z) : Z :=
  let y := if m <=? 2 then y0 - 1 else y0 in
  let era := y / 400 in
  let yoe := y - era * 400 in
  let doy := (153 * (if 2 <? m then m - 3 else m + 9) + 2) / 5 + d - 1 in
  let doe := yoe * 365 + yoe / 4 - yoe / 100 + doy in
  era * 146097 + doe - 719468.

Definition dt_year (t : Z) : Z := (civil_from_days (days_of t)).1.1.
Definition dt_month (t : Z) : Z := (civil_from_days (days_of t)).1.2.
Definition dt_day (t : Z) : Z := (civil_from_days (days_of t)).2.

(** Monday is 0; 1970-01-01 was a Thursday. *)
Definition dt_dayofweek (t : Z) : Z := (days_of t + 3) mod 7.

Definition day_names : list string :=
  ["Monday"; "Tuesday"; "Wednesday"; "Thursday"; "Friday"; "Saturday"; "Sunday"].

Definition dt_day_name (t : Z) : string :=
  nth (Z.to_nat (dt_dayofweek t)) day_names "".

Definition month_names : list string :=
  ["January"; "February"; "March"; "April"; "May"; "June"; "July"; "August";
   "September"; "October"; "November"; "December"].

Definition dt_month_name (t : Z) : string :=
  nth (Z.to_nat (dt_month t - 1)) month_names "".

(** ISO 8601 week number: the week of a day is the week of its Thursday. *)
Definition dt_isoweek (t : Z) : Z :=
  let d := days_of t in
  let thursday := d - (d + 3) mod 7 + 3 in
  let y := (civil_from_days thursday).1.1 in
  (thursday - days_from_civil y 1 1) / 7 + 1.

Definition dt_quarter (t : Z) : Z := (dt_month t - 1) / 3 + 1.

(** ** Column operations *)

(** The labels after [df[c] = ...]: a new label goes last. *)
Definition add_col (c : string) (cols : list string) : list string :=
  if decide (c ∈ cols) then cols else cols ++ [c].

(** [df[c] = f(row)]: an existing column is overwritten in place, a new one
    is appended.  The exception of the first failing cell leaves. *)
Definition assign (c : string) (f : Row → result cell) (df : DataFrame)
  : result DataFrame :=
  rows' ← mapM (λ r, v ← f r; mret (<[c := v]> r)) (rows df);
  mret (mkDF (add_col c (columns df)) rows').

(** [if c in df.columns: step] *)
Definition when_col (c : string) (step : DataFrame → result DataFrame)
    (df : DataFrame) : result DataFrame :=
  if decide (c ∈ columns df) then step df else mret df.

(** Elementwise arithmetic: null stays null, a string or a timestamp is a
    [TypeError]. *)
Definition num1 (f : Qc → Qc) (v : cell) : result cell :=
  match v with
  | CNum q => Ok (CNum (f q))
  | CNull => Ok CNull
  | _ => Raise TypeError
  end.

Definition num2 (f : Qc → Qc → Qc) (a b : cell) : result cell :=
  match a, b with
  | CNum x, CNum y => Ok (CNum (f x y))
  | CNum _, CNull | CNull, CNum _ | CNull, CNull => Ok CNull
  | _, _ => Raise TypeError
  end.

(** A field of the [.dt] accessor: null on NaT. *)
Definition dt_field (f : Z → cell) (v : cell) : result cell :=
  match v with
  | CDate t => Ok (f t)
  | CNull => Ok CNull
  | _ => Raise AttributeError
  end.

(** [Series.isin(values)] on numbers, as 0/1 after [astype(int)]. *)
Definition isin (values : list Z) (v : cell) : bool :=
  match v with
  | CNum q => bool_decide (Exists (λ z, q = qz z) values)
  | _ => false
  end.

Definition of_bool (b : bool) : cell := CNum (if b then qz 1 else qz 0).

(** The mapping passed to [df['month'].map]; a value that is not a key maps
    to null. *)
Definition season_of_month (v : cell) : cell :=
  if isin [12; 1; 2] v then CStr "Winter"
  else if isin [3; 4; 5] v then CStr "Spring"
  else if isin [6; 7; 8] v then CStr "Summer"
  else if isin [9; 10; 11] v then CStr "Fall"
  else CNull.

(** ** Binning ([pd.cut], right-closed intervals) *)

Inductive bound : Type :=
  | NegInf
  | Fin (q : Qc)
  | PosInf.

(** [b < x] *)
Definition bound_ltb (b : bound) (x : Qc) : bool :=
  match b with NegInf => true | Fin q => Qc_ltb q x | PosInf => false end.

(** [x <= b] *)
Definition bound_geb (b : bound) (x : Qc) : bool :=
  match b with NegInf => false | Fin q => Qc_leb x q | PosInf => true end.

(** The label of the bin [(lo, hi]] that holds [x], if any. *)
Fixpoint cut (bins : list bound) (labels : list string) (x : Qc)
  : option string :=
  match bins, labels with
  | lo :: ((hi :: _) as rest), l :: labels' =>
      if bound_ltb lo x && bound_geb hi x then Some l else cut rest labels' x
  | _, _ => None
  end.

Definition cut_cell (bins : list bound) (labels : list string) (v : cell)
  : result cell :=
  match v with
  | CNum x => Ok (match cut bins labels x with Some l => CStr l | None => CNull end)
  | CNull => Ok CNull
  | _ => Raise TypeError
  end.

Definition temp_bins : list bound :=
  [NegInf; Fin (qz 32); Fin (qz 50); Fin (qz 68); Fin (qz 85); PosInf].
Definition temp_labels : list string :=
  ["Freezing"; "Cold"; "Mild"; "Warm"; "Hot"].

Definition rain_bins : list bound :=
  [NegInf; Fin (qd 1 100); Fin (qd 1 10); Fin (qd 5 10); PosInf].
Definition rain_labels : list string :=
  ["No Rain"; "Light Rain"; "Moderate Rain"; "Heavy Rain"].

Definition condition_bins : list bound :=
  [NegInf; Fin (qd 3 10); Fin (qd 6 10); PosInf].
Definition condition_labels : list string := ["Good"; "Moderate"; "Poor"].

(** ** The world of the extractor and of the cache loader *)

Inductive log_msg : Type :=
  | AttemptFailed (attempt : Z) (e : exn)
  | WeekFailed (week_start : Z) (e : exn)
  | NoDataFetched.

(** What the extractor does that can be observed from outside: a call of a
    remote-call thunk, a [time.sleep], a [logger.error]. *)
Inductive event : Type :=
  | Invoked
  | Slept (secs : Qc)
  | Logged (m : log_msg).

(** [net] is the state of the remote services, [cache_file] the content of
    the parquet file when it exists. *)
Record World (Net : Type) : Type := mkWorld {
  net : Net;
  trace : list event;
  cache_file : option DataFrame
}.
Arguments mkWorld {Net} net trace cache_file.
Arguments net {Net} w.
Arguments trace {Net} w.
Arguments cache_file {Net} w.

(** A JSON object with scalar values, keys in document order. *)
Abbreviation record := (list (string * cell)).

Record mta_request : Type := mkMtaRequest {
  limit : Z;
  order : string;
  where_from : Z;   (* transit_timestamp >= this day, 00:00:00 *)
  where_to : Z;     (* transit_timestamp <  this day, 23:59:59 *)
  app_token_header : option string
}.

Record weather_request : Type := mkWeatherRequest {
  latitude : Qc;
  longitude : Qc;
  start_date : Z;
  end_date : Z;
  daily : string;
  timezone : string
}.

(** The weather response: the object under its key [daily], if any, as the
    arrays by metric name. *)
Abbreviation weather_json := (option (gmap string (list cell))).

Inductive loop_ctl (A : Type) : Type :=
  | Next (a : A)
  | Break (a : A).
Arguments Next {A} a.
Arguments Break {A} a.

(** [range(n)] and [range(0, n, step)] *)
Definition py_range (n : Z) : list Z := Z.of_nat <$> seq 0 (Z.to_nat n).
Definition py_range_step (n step : Z) : list Z :=
  (λ k, step * k) <$> py_range ((n + step - 1) / step).

(** [l[:n]] *)
Definition py_slice_to {A} (l : list A) (n : Z) : list A :=
  if 0 <=? n then take (Z.to_nat n) l
  else take (Z.to_nat (Z.of_nat (length l) + n)) l.

(** [pd.DataFrame(records)]: the columns are the keys in the order of their
    first appearance; a key that a record lacks reads as null there. *)
Definition frame_columns (recs : list record) : list string :=
  foldl (λ acc k, if decide (k ∈ acc) then acc else acc ++ [k]) []
        (r ← recs; r.*1).

Definition frame_of_records (recs : list record) : DataFrame :=
  mkDF (frame_columns recs) (list_to_map <$> recs).

(** A zero-argument remote call: it acts on the remote state only. *)
Definition thunk (Net A : Type) : Type := Net → result A * Net.

(** The readers of pandas for text, which the repository only calls:
    [pd.Timestamp(s)] and the float reader of [pd.to_numeric]. *)
Class Readers : Type := {
  parse_timestamp : string → option Z;
  parse_number : string → option Qc
}.

(** What the extractor finds around it: the two remote services (one HTTP
    GET with [raise_for_status] and [response.json()], any failure being an
    exception), [os.getenv("SOCRATA_APP_TOKEN")] and the day of
    [datetime.now()]. *)
Class Services (Net : Type) : Type := {
  mta_get : mta_request → thunk Net (list record);
  weather_get : weather_request → thunk Net weather_json;
  app_token : option string;
  today : Z
}.

Section Pipeline.

Context `{Readers}.

(** [pd.to_datetime] on one cell: a number counts nanoseconds, a string
    that does not read as a timestamp is a [ValueError]. *)
Definition to_datetime (v : cell) : result cell :=
  match v with
  | CNull => Ok CNull
  | CDate t => Ok (CDate t)
  | CNum q => Ok (CDate (Z.quot (Qnum (this q)) (Z.pos (Qden (this q)))))
  | CStr s =>
      match parse_timestamp s with
      | Some t => Ok (CDate t)
      | None => Raise ValueError
      end
  end.

(** [pd.to_datetime(..., errors='coerce')] *)
Definition to_datetime_coerce (v : cell) : cell :=
  match to_datetime v with Ok d => d | Raise _ => CNull end.

(** [pd.to_numeric(..., errors='coerce')] *)
Definition to_numeric_coerce (v : cell) : cell :=
  match v with
  | CNum q => CNum q
  | CStr s => match parse_number s with Some q => CNum q | None => CNull end
  | CDate t => CNum (qz t)
  | CNull => CNull
  end.

(** ** Feature deriver ([DataTransformer.add_derived_features]) *)

Definition celsius_to_fahrenheit (c : Qc) : Qc := (c * qz 9 / qz 5 + qz 32)%Qc.
Definition mm_to_inches (p : Qc) : Qc := (p / qd 254 10)%Qc.
Definition ms_to_mph (w : Qc) : Qc := (w * qd 2237 1000)%Qc.

(** The three summands of the impact score, before weighting. *)
Definition temp_discomfort (t : Qc) : Qc := (Qcabs (t - qz 65) / qz 30)%Qc.
Definition precip_norm (p : Qc) : Qc := clip (p / qd 5 10)%Qc (qz 0) (qz 1).
Definition wind_norm (w : Qc) : Qc := clip (w / qz 25)%Qc (qz 0) (qz 1).

Definition weather_impact_score (r : Row) : result cell :=
  td ← num1 temp_discomfort (get r "temperature_f");
  pn ← num1 precip_norm (get r "precipitation_in");
  wn ← num1 wind_norm (get r "windspeed_mph");
  a ← num1 (λ x, x * qd 4 10)%Qc td;
  b ← num1 (λ x, x * qd 4 10)%Qc pn;
  c ← num1 (λ x, x * qd 2 10)%Qc wn;
  ab ← num2 Qcplus a b;
  num2 Qcplus ab c.

(** The blocks of the deriver, in the order of the source. *)

(** Unit conversions, first. *)
Definition unit_conversions (df : DataFrame) : result DataFrame :=
  df ← when_col "temperature_mean"
         (assign "temperature_f"
            (λ r, num1 celsius_to_fahrenheit (get r "temperature_mean"))) df;
  df ← when_col "precipitation"
         (assign "precipitation_in"
            (λ r, num1 mm_to_inches (get r "precipitation"))) df;
  when_col "windspeed"
    (assign "windspeed_mph" (λ r, num1 ms_to_mph (get r "windspeed"))) df.

(** Time-based features. *)
Definition time_features (df : DataFrame) : result DataFrame :=
  df ← assign "year" (λ r, dt_field (λ t, CNum (qz (dt_year t))) (get r "date")) df;
  df ← assign "month" (λ r, dt_field (λ t, CNum (qz (dt_month t))) (get r "date")) df;
  df ← assign "day" (λ r, dt_field (λ t, CNum (qz (dt_day t))) (get r "date")) df;
  df ← assign "day_of_week"
         (λ r, dt_field (λ t, CNum (qz (dt_dayofweek t))) (get r "date")) df;
  df ← assign "day_name" (λ r, dt_field (λ t, CStr (dt_day_name t)) (get r "date")) df;
  df ← assign "week_of_year"
         (λ r, dt_field (λ t, CNum (qz (dt_isoweek t))) (get r "date")) df;
  df ← assign "is_weekend" (λ r, Ok (of_bool (isin [5; 6] (get r "day_of_week")))) df;
  df ← assign "is_weekday"
         (λ r, Ok (of_bool (negb (isin [5; 6] (get r "day_of_week"))))) df;
  df ← assign "quarter" (λ r, dt_field (λ t, CNum (qz (dt_quarter t))) (get r "date")) df;
  assign "season" (λ r, Ok (season_of_month (get r "month"))) df.

(** [(df['precipitation_in'] > 0.01).astype(int)]: NaN compares false. *)
Definition is_rainy (v : cell) : result cell :=
  match v with
  | CNum p => Ok (of_bool (Qc_ltb (qd 1 100) p))
  | CNull => Ok (of_bool false)
  | _ => Raise TypeError
  end.

(** Weather categories, on the converted values. *)
Definition weather_categories (df : DataFrame) : result DataFrame :=
  df ← when_col "temperature_f"
         (assign "temp_category"
            (λ r, cut_cell temp_bins temp_labels (get r "temperature_f"))) df;
  when_col "precipitation_in"
    (λ df,
       df ← assign "rain_category"
              (λ r, cut_cell rain_bins rain_labels (get r "precipitation_in")) df;
       assign "is_rainy" (λ r, is_rainy (get r "precipitation_in")) df) df.

(** Weather impact score and the condition read from it. *)
Definition impact_score (df : DataFrame) : result DataFrame :=
  if decide (Forall (λ c, c ∈ columns df)
               ["temperature_f"; "precipitation_in"; "windspeed_mph"])
  then
    df ← assign "weather_impact_score" weather_impact_score df;
    assign "weather_condition"
      (λ r, cut_cell condition_bins condition_labels
              (get r "weather_impact_score")) df
  else mret df.

Definition add_derived_features (df : DataFrame) : result DataFrame :=
  if decide ("date" ∈ columns df) then
    df ← assign "date" (λ r, to_datetime (get r "date")) df;
    df ← unit_conversions df;
    df ← time_features df;
    df ← weather_categories df;
    impact_score df
  else mret df.

(** ** Merge orchestrator ([DataTransformer.transform_and_merge]) *)

(** [pd.to_datetime(col).dt.date]: the calendar day, time of day dropped. *)
Definition normalize_date (v : cell) : result cell :=
  d ← to_datetime v;
  dt_field (λ t, CDate (floor_day t)) d.

(** The label of a column after the merge: a label that both tables carry
    outside the key takes the suffix of its side. *)
Definition suffixed (overlap : list string) (suffix : string) (c : string)
  : string :=
  if decide (c ∈ overlap) then c ++ suffix else c.

Definition others (key : string) (cols : list string) : list string :=
  filter (λ c, c ≠ key) cols.

(** The cells of [r] at [cols], under their labels after the merge. *)
Definition relabel (overlap : list string) (suffix : string)
    (cols : list string) (r : Row) : Row :=
  list_to_map ((λ c, (suffixed overlap suffix c, get r c)) <$> cols).

(** [pd.merge(left, right, on=key, how='inner', suffixes=(ls, rs))].
    The rows keep the order of the left table, and for one left row the
    order of the matching right rows.  A missing key column is a
    [KeyError].  When the labels after suffixing are not distinct pandas
    raises or returns a table with a repeated label; such a table is not
    representable here and the model raises. *)
Definition pd_merge (key : string) (left right : DataFrame) (ls rs : string)
  : result DataFrame :=
  if decide (key ∈ columns left ∧ key ∈ columns right) then
    let overlap :=
      filter (λ c, c ∈ others key (columns right)) (others key (columns left)) in
    let lcols := suffixed overlap ls <$> columns left in
    let rcols := suffixed overlap rs <$> others key (columns right) in
    if decide (NoDup (lcols ++ rcols)) then
      Ok (mkDF (lcols ++ rcols)
            (l ← rows left;
             r ← filter (λ r, get r key = get l key) (rows right);
             [relabel overlap ls (columns left) l
                ∪ relabel overlap rs (others key (columns right)) r]))
    else Raise ValueError
  else Raise (KeyError key).

(** The order of [sort_values]: ascending, nulls last. *)
Definition key_leb (a b : cell) : bool :=
  match a, b with
  | _, CNull => true
  | CNull, _ => false
  | CNum x, CNum y => Qc_leb x y
  | CStr x, CStr y => String.leb x y
  | CDate x, CDate y => (x <=? y)%Z
  | _, _ => true
  end.

Definition same_kind (a b : cell) : bool :=
  match a, b with
  | CNull, _ | _, CNull => true
  | CNum _, CNum _ | CStr _, CStr _ | CDate _, CDate _ => true
  | _, _ => false
  end.

Fixpoint insert_by (c : string) (x : Row) (l : list Row) : list Row :=
  match l with
  | [] => [x]
  | y :: l' =>
      if key_leb (get x c) (get y c) then x :: y :: l'
      else y :: insert_by c x l'
  end.

(** [df.sort_values(c)]: rows with equal keys keep their order.  Keys of
    different kinds do not compare ([TypeError]). *)
Definition sort_values (c : string) (df : DataFrame) : result DataFrame :=
  if decide (c ∈ columns df) then
    if decide (Forall (λ a, Forall (λ b, same_kind a b = true) (column df c))
                      (column df c))
    then Ok (mkDF (columns df) (foldr (insert_by c) [] (rows df)))
    else Raise TypeError
  else Raise (KeyError c).

(** The trailing window of at most [w] entries that ends at index [i]. *)
Definition window {A} (w i : nat) (l : list A) : list A :=
  drop (S i - w) (take (S i) l).

Definition sum_Qc (l : list Qc) : Qc := foldr Qcplus (qz 0) l.

(** The mean of the numbers of [l], null when there are fewer than
    [min_periods] of them (or none). *)
Definition mean_of (min_periods : nat) (l : list cell) : cell :=
  let xs := numbers l in
  if bool_decide (xs = []) || (length xs <? min_periods)%nat then CNull
  else CNum (sum_Qc xs / qn (length xs))%Qc.

(** [Series.rolling(window=w, min_periods=mp).mean()] *)
Definition rolling_mean (w min_periods : nat) (col : list cell)
  : result (list cell) :=
  if decide (Forall (λ v, numeric v = true) col)
  then Ok (imap (λ i _, mean_of min_periods (window w i col)) col)
  else Raise TypeError.

(** [df[c] = series], row by row. *)
Definition assign_values (c : string) (vals : list cell) (df : DataFrame)
  : DataFrame :=
  mkDF (add_col c (columns df))
       (zip_with (λ r v, <[c := v]> r) (rows df) vals).

(** Rolling averages of the ridership, on the table sorted by date. *)
Definition add_rolling_averages (merged_df : DataFrame) : result DataFrame :=
  merged_df ← sort_values "date" merged_df;
  avg7 ← rolling_mean 7 1 (column merged_df "ridership");
  let merged_df := assign_values "ridership_7day_avg" avg7 merged_df in
  avg30 ← rolling_mean 30 1 (column merged_df "ridership");
  mret (assign_values "ridership_30day_avg" avg30 merged_df).

(** The inner join on the calendar day of [transform_and_merge]. *)
Definition merge_on_date (ridership_clean weather_clean : DataFrame)
  : result DataFrame :=
  ridership_clean ←
    assign "date" (λ r, normalize_date (get r "date")) ridership_clean;
  weather_clean ←
    assign "date" (λ r, normalize_date (get r "date")) weather_clean;
  pd_merge "date" ridership_clean weather_clean "_ridership" "_weather".

(** The final null ratio is only logged and is left out. *)
Definition transform_and_merge (ridership_df weather_df : DataFrame)
  : M Metrics DataFrame :=
  ridership_clean ← validate_data_quality ridership_df "ridership";
  weather_clean ← validate_data_quality weather_df "weather";
  if df_empty ridership_clean || df_empty weather_clean then mret empty_frame
  else
    merged_df ← lift (merge_on_date ridership_clean weather_clean);
    if df_empty merged_df then mret merged_df
    else
      merged_df ← lift (assign "date" (λ r, to_datetime (get r "date")) merged_df);
      merged_df ← lift (add_derived_features merged_df);
      merged_df ← lift (when_col "ridership" add_rolling_averages merged_df);
      mret merged_df.

(** ** Resilient fetcher ([DataExtractor.fetch_with_retry]) *)

Context {Net : Type} `{Services Net}.

Definition emit (e : event) : M (World Net) unit :=
  modify (λ w, mkWorld (net w) (trace w ++ [e]) (cache_file w)).

(** [func()] *)
Definition invoke {A} (func : thunk Net A) : M (World Net) A :=
  λ w, let '(r, n) := func (net w) in
       (r, mkWorld n (trace w ++ [Invoked]) (cache_file w)).

(** [time.sleep(secs)]: a negative length is a [ValueError]. *)
Definition sleep (secs : Qc) : M (World Net) unit :=
  if Qc_ltb secs (qz 0) then raise ValueError else emit (Slept secs).

Definition log_error (m : log_msg) : M (World Net) unit := emit (Logged m).

(** [self.max_retries], [self.retry_delay] *)
Definition self_max_retries : Z := 3.
Definition self_retry_delay : Qc := qz 2.

(** [x or d]: [None] and zero are falsy. *)
Definition or_Z (x : option Z) (d : Z) : Z :=
  match x with
  | Some v => if v =? 0 then d else v
  | None => d
  end.
Definition or_Qc (x : option Qc) (d : Qc) : Qc :=
  match x with
  | Some v => if bool_decide (v = qz 0) then d else v
  | None => d
  end.

(** The [for attempt in range(max_retries)] loop; falling off its end
    returns [None]. *)
Fixpoint retry_loop {A} (func : thunk Net A) (max_retries : Z) (delay : Qc)
    (attempts : list Z) : M (World Net) (option A) :=
  match attempts with
  | [] => mret None
  | attempt :: rest =>
      try_except
        (v ← invoke func; mret (Some v))
        (λ e,
           log_error (AttemptFailed (attempt + 1) e);;
           if attempt <? max_retries - 1 then
             sleep (delay * qz (attempt + 1))%Qc;;
             retry_loop func max_retries delay rest
           else raise e)
  end.

Definition fetch_with_retry {A} (func : thunk Net A)
    (max_retries : option Z) (delay : option Qc) : M (World Net) (option A) :=
  let max_retries := or_Z max_retries self_max_retries in
  let delay := or_Qc delay self_retry_delay in
  retry_loop func max_retries delay (py_range max_retries).

(** ** Ridership extractor ([DataExtractor.fetch_ridership_data]) *)

(** 2023-01-01 *)
Definition default_start_date : Z := 19358.

(** The closure [_fetch] of one weekly window. *)
Definition ridership_fetch (records_per_day date week_end : Z)
  : thunk Net (list record) :=
  mta_get
    (mkMtaRequest (records_per_day * 7) "transit_timestamp DESC" date week_end
       (match app_token with
        | Some t => if bool_decide (t = "") then None else Some t
        | None => None
        end)).

(** The loop over the weekly windows, from the offsets still to visit and
    the records gathered so far. *)
Fixpoint fetch_weeks (start_dt end_dt records_per_day max_records : Z)
    (offsets : list Z) (all_data : list record) : M (World Net) (list record) :=
  match offsets with
  | [] => mret all_data
  | day_offset :: rest =>
      let current_date := start_dt + day_offset in
      let week_end := Z.min (current_date + 6) end_dt in
      ctl ← try_except
        (batch ← fetch_with_retry
                   (ridership_fetch records_per_day current_date week_end)
                   None None;
         let all_data :=
           match batch with
           | Some ((_ :: _) as b) => all_data ++ b
           | _ => all_data
           end in
         if max_records <=? Z.of_nat (length all_data) then
           mret (Break (py_slice_to all_data max_records))
         else
           sleep (qd 5 10);;
           mret (Next all_data))
        (λ e,
           log_error (WeekFailed current_date e);;
           mret (Next all_data));
      match ctl with
      | Break all_data => mret all_data
      | Next all_data =>
          fetch_weeks start_dt end_dt records_per_day max_records rest all_data
      end
  end.

Definition fetch_ridership_data (start_date end_date : option Z)
    (max_records : Z) : M (World Net) DataFrame :=
  let end_date := default today end_date in
  let start_date := default default_start_date start_date in
  let start_dt := start_date in
  let end_dt := end_date in
  let days := end_dt - start_dt + 1 in
  let records_per_day := if 0 <? days then max_records / days else 50000 in
  all_data ←
    fetch_weeks start_dt end_dt records_per_day max_records
      (py_range_step days 7) [];
  match all_data with
  | [] =>
      log_error NoDataFetched;;
      mret empty_frame
  | _ =>
      let df := frame_of_records all_data in
      df ← lift
        (when_col "transit_timestamp"
           (assign "date" (λ r, Ok (to_datetime_coerce (get r "transit_timestamp"))))
           df);
      df ← lift
        (when_col "ridership"
           (assign "ridership" (λ r, Ok (to_numeric_coerce (get r "ridership")))) df);
      df ← lift
        (when_col "transfers"
           (assign "transfers" (λ r, Ok (to_numeric_coerce (get r "transfers")))) df);
      df ← lift (dropna ["date"] df);
      df ← lift (sort_values "date" df);
      mret df
  end.

(** ** Weather extractor ([DataExtractor.fetch_weather_data]) *)

(** [pd.DataFrame({...})] of four arrays: they must have one length. *)
Definition frame_of_arrays (dates temps precs winds : list cell)
  : result DataFrame :=
  if decide (length temps = length dates ∧ length precs = length dates
             ∧ length winds = length dates)
  then
    Ok (mkDF ["date"; "temperature_mean"; "precipitation"; "windspeed"]
          (imap (λ i d,
                   {[ "date" := d;
                      "temperature_mean" := nth i temps CNull;
                      "precipitation" := nth i precs CNull;
                      "windspeed" := nth i winds CNull ]})
                dates))
  else Raise ValueError.

(** The closing log line formats [df['date'].min().date()]: on a table
    without a date this is [NaT.date()], a [ValueError]. *)
Definition fetch_weather_data (lat lon : Qc) (start_date end_date : option Z)
  : M (World Net) DataFrame :=
  let end_date := default today end_date in
  let start_date := default default_start_date start_date in
  data ← fetch_with_retry
           (weather_get
              (mkWeatherRequest lat lon start_date end_date
                 "temperature_2m_mean,precipitation_sum,windspeed_10m_max"
                 "America/New_York"))
           None None;
  match data with
  | None => raise AttributeError
  | Some data =>
      let daily := default ∅ data in
      dates ← lift (mapM to_datetime (default [] (daily !! "time")));
      df ← lift
        (frame_of_arrays dates
           (default [] (daily !! "temperature_2m_mean"))
           (default [] (daily !! "precipitation_sum"))
           (default [] (daily !! "windspeed_10m_max")));
      date_min ← lift (series_min (column df "date"));
      match date_min with
      | CNull => raise ValueError
      | _ => mret df
      end
  end.

(** ** Cache loader ([load_data] of the dashboard)

    The messages to the page and the memoisation of the decorator are left
    out; [to_parquet] followed by [read_parquet] gives the table back. *)

Definition remove_cache_file : M (World Net) unit :=
  modify (λ w, mkWorld (net w) (trace w) None).
Definition write_cache_file (df : DataFrame) : M (World Net) unit :=
  modify (λ w, mkWorld (net w) (trace w) (Some df)).

(** A method of the transformer, run on its dictionary. *)
Definition run_transformer {A} (m : M Metrics A) (quality_metrics : Metrics)
  : M (World Net) (A * Metrics) :=
  λ w, match m quality_metrics with
       | (Ok a, qm) => (Ok (a, qm), w)
       | (Raise e, _) => (Raise e, w)
       end.

(** [df[dst] = f(df[src])]: reading a missing column is a [KeyError]. *)
Definition derive_column (src dst : string) (f : cell → result cell)
    (df : DataFrame) : result DataFrame :=
  if decide (src ∈ columns df) then assign dst (λ r, f (get r src)) df
  else Raise (KeyError src).

(** [df[dst] = df[src].dt.field].  A table without rows reaches the loader
    only from the early returns of [transform_and_merge], directly or
    through the cache; its date column holds no timestamps and the
    accessor raises [AttributeError]. *)
Definition derive_dt_column (src dst : string) (f : Z → cell)
    (df : DataFrame) : result DataFrame :=
  if decide (src ∈ columns df) then
    match rows df with
    | [] => Raise AttributeError
    | _ => assign dst (λ r, dt_field f (get r src)) df
    end
  else Raise (KeyError src).

(** The columns precomputed for the filters of the page. *)
Definition precompute_filters (merged_df : DataFrame) : result DataFrame :=
  merged_df ← derive_column "ridership" "ridership"
                (λ v, Ok (to_numeric_coerce v)) merged_df;
  merged_df ← derive_dt_column "date" "year"
                (λ t, CNum (qz (dt_year t))) merged_df;
  merged_df ← derive_dt_column "date" "month"
                (λ t, CNum (qz (dt_month t))) merged_df;
  merged_df ← derive_dt_column "date" "month_name"
                (λ t, CStr (dt_month_name t)) merged_df;
  derive_dt_column "date" "day_name" (λ t, CStr (dt_day_name t)) merged_df.

(** The extraction and transformation of a fresh table, written to the
    cache: the body of [if not os.path.exists(CACHE_FILE)]. *)
Definition fetch_fresh (transformer : Metrics)
  : M (World Net) (DataFrame * Metrics) :=
  ridership_df ← fetch_ridership_data (Some 19358) (Some 20088) 600000;
  weather_df ← fetch_weather_data (qd 407128 10000) (qd (-740060) 10000)
                  (Some 19358) (Some 20088);
  out ← run_transformer (transform_and_merge ridership_df weather_df) transformer;
  write_cache_file out.1;;
  mret out.

Definition load_data : M (World Net) (DataFrame * Metrics) :=
  let transformer : Metrics := ∅ in
  cached ← gets cache_file;
  loaded ←
    match cached with
    | Some merged_df =>
        let quality_report := transformer in
        let needs_reprocess :=
          bool_decide ("temperature_f" ∉ columns merged_df)
          || bool_decide ("precipitation_in" ∉ columns merged_df) in
        (if needs_reprocess then remove_cache_file else mret tt);;
        mret (Some (merged_df, quality_report))
    | None => mret None
    end;
  cached ← gets cache_file;
  out ←
    match cached with
    | None => fetch_fresh transformer
    | Some _ =>
        match loaded with
        | Some out => mret out
        | None => raise UnboundLocalError
        end
    end;
  merged_df ← lift (precompute_filters out.1);
  mret (merged_df, out.2).

End Pipeline.

(** * Notions used in the statements

    ** The deriver as a list of guarded assignments

    Every statement of [add_derived_features] after the date conversion is
    an assignment [df[label] = fn(row)] under a test that some columns
    exist.  [feature_steps] lists them in order; the deriver is shown below
    to run exactly this list. *)

Record step : Type := mkStep {
  guard : list string;
  label : string;
  fn : Row → result cell
}.

Definition run_step (s : step) (df : DataFrame) : result DataFrame :=
  if decide (Forall (λ c, c ∈ columns df) (guard s))
  then assign (label s) (fn s) df
  else Ok df.

Fixpoint run_steps (steps : list step) (df : DataFrame) : result DataFrame :=
  match steps with
  | [] => Ok df
  | s :: rest => df ← run_step s df; run_steps rest df
  end.

(** What one assignment does to one row. *)
Definition row_step (c : string) (f : Row → result cell) (r r' : Row) : Prop :=
  ∃ v, f r = Ok v ∧ r' = <[c := v]> r.

(** [r'] reads as [r] outside the labels [L]. *)
Definition agree_outside (L : list string) (r r' : Row) : Prop :=
  ∀ k, k ∉ L → get r' k = get r k.

(** [f] reads its row only at the labels [D]. *)
Definition reads_only (D : list string) (f : Row → result cell) : Prop :=
  ∀ r1 r2, (∀ d, d ∈ D → get r1 d = get r2 d) → f r1 = f r2.

Section Steps.
Context `{Readers}.

Definition conversion_steps : list step :=
  [ mkStep ["temperature_mean"] "temperature_f"
      (λ r, num1 celsius_to_fahrenheit (get r "temperature_mean"));
    mkStep ["precipitation"] "precipitation_in"
      (λ r, num1 mm_to_inches (get r "precipitation"));
    mkStep ["windspeed"] "windspeed_mph"
      (λ r, num1 ms_to_mph (get r "windspeed")) ].

Definition time_steps : list step :=
  [ mkStep [] "year" (λ r, dt_field (λ t, CNum (qz (dt_year t))) (get r "date"));
    mkStep [] "month" (λ r, dt_field (λ t, CNum (qz (dt_month t))) (get r "date"));
    mkStep [] "day" (λ r, dt_field (λ t, CNum (qz (dt_day t))) (get r "date"));
    mkStep [] "day_of_week"
      (λ r, dt_field (λ t, CNum (qz (dt_dayofweek t))) (get r "date"));
    mkStep [] "day_name" (λ r, dt_field (λ t, CStr (dt_day_name t)) (get r "date"));
    mkStep [] "week_of_year"
      (λ r, dt_field (λ t, CNum (qz (dt_isoweek t))) (get r "date"));
    mkStep [] "is_weekend" (λ r, Ok (of_bool (isin [5; 6] (get r "day_of_week"))));
    mkStep [] "is_weekday"
      (λ r, Ok (of_bool (negb (isin [5; 6] (get r "day_of_week")))));
    mkStep [] "quarter" (λ r, dt_field (λ t, CNum (qz (dt_quarter t))) (get r "date"));
    mkStep [] "season" (λ r, Ok (season_of_month (get r "month"))) ].

Definition category_steps : list step :=
  [ mkStep ["temperature_f"] "temp_category"
      (λ r, cut_cell temp_bins temp_labels (get r "temperature_f"));
    mkStep ["precipitation_in"] "rain_category"
      (λ r, cut_cell rain_bins rain_labels (get r "precipitation_in"));
    mkStep ["precipitation_in"] "is_rainy" (λ r, is_rainy (get r "precipitation_in")) ].

Definition impact_steps : list step :=
  [ mkStep ["temperature_f"; "precipitation_in"; "windspeed_mph"]
      "weather_impact_score" weather_impact_score;
    mkStep ["temperature_f"; "precipitation_in"; "windspeed_mph"]
      "weather_condition"
      (λ r, cut_cell condition_bins condition_labels (get r "weather_impact_score")) ].

Definition feature_steps : list step :=
  mkStep [] "date" (λ r, to_datetime (get r "date"))
    :: conversion_steps ++ time_steps ++ category_steps ++ impact_steps.

(** A row on which the deriver does not raise: a date that converts, and
    numbers or nulls in the weather columns. *)
Definition feature_typed_row (r : Row) : Prop :=
  is_Ok (to_datetime (get r "date"))
  ∧ Forall (λ c, numeric (get r c) = true)
      ["temperature_mean"; "precipitation"; "windspeed";
       "temperature_f"; "precipitation_in"; "windspeed_mph"].

Definition feature_typed (df : DataFrame) : Prop :=
  Forall feature_typed_row (rows df).

End Steps.

(** A row after the date conversion: a timestamp or NaT under [date], and
    numbers or nulls in the weather columns. *)
Definition dated_row (r : Row) : Prop :=
  match get r "date" with CDate _ | CNull => True | _ => False end
  ∧ Forall (λ c, numeric (get r c) = true)
      ["temperature_mean"; "precipitation"; "windspeed";
       "temperature_f"; "precipitation_in"; "windspeed_mph"].

(** The impact score as the specification words it: every summand clipped
    to the unit interval. *)
Definition weather_impact_score_spec (t p w : Qc) : Qc :=
  (qd 4 10 * clip (Qcabs (t - qz 65) / qz 30) (qz 0) (qz 1)
   + qd 4 10 * clip (p / qd 5 10) (qz 0) (qz 1)
   + qd 2 10 * clip (w / qz 25) (qz 0) (qz 1))%Qc.

(** One merged row of a cold and wet day: -15 °C, 12.7 mm, no wind. *)
Definition cold_wet_day : DataFrame :=
  mkDF ["date"; "ridership"; "temperature_mean"; "precipitation"; "windspeed"]
       [ {[ "date" := CDate 0; "ridership" := CNum (qz 1000);
            "temperature_mean" := CNum (qz (-15));
            "precipitation" := CNum (qd 127 10);
            "windspeed" := CNum (qz 0) ]} ].

(** ** Notions for the validator *)

(** A date column of the datetime dtype: timestamps and NaT. *)
Definition is_date (v : cell) : bool :=
  match v with CDate _ | CNull => true | _ => false end.

Definition date_typed (df : DataFrame) : Prop :=
  Forall (λ r, is_date (get r "date") = true) (rows df).

(** The rows of [l] that no earlier row of [l] repeats, in order. *)
Definition first_occurrences (cols : list string) (l : list Row) : list Row :=
  omap id
    (imap (λ i r,
             if decide (Exists (same_row cols r) (take i l)) then None
             else Some r)
          l).

(** Three ridership rows, the second without a date. *)
Definition three_rows : DataFrame :=
  mkDF ["date"; "ridership"]
       [ {[ "date" := CDate 0; "ridership" := CNum (qz 10) ]};
         {[ "date" := CNull; "ridership" := CNum (qz 20) ]};
         {[ "date" := CDate ns_per_day; "ridership" := CNum (qz 30) ]} ].

(** A non-empty table without a date column. *)
Definition undated_rows : DataFrame :=
  mkDF ["ridership"] [ {[ "ridership" := CNum (qz 10) ]} ].

(** ** Notions for the merge *)

(** The calendar days of the dated rows of a table. *)
Definition day_of_cell (v : cell) : option Z :=
  match v with CDate t => Some (days_of t) | _ => None end.

Definition day_set (df : DataFrame) : gset Z :=
  list_to_set (omap (λ r, day_of_cell (get r "date")) (rows df)).

(** The date cell after [normalize_date], on a column of timestamps. *)
Definition floor_cell (v : cell) : cell :=
  match v with CDate t => CDate (floor_day t) | _ => CNull end.

(** A table with its date column normalised to the calendar day. *)
Definition normalized (df : DataFrame) : DataFrame :=
  mkDF (columns df) ((λ r, <["date" := floor_cell (get r "date")]> r) <$> rows df).

(** Readers that read nothing: every text is unparseable. *)
Definition no_readers : Readers :=
  {| parse_timestamp := λ _, None; parse_number := λ _, None |}.

(** A timestamp on day [d], [h] hours after midnight. *)
Definition at_hour (d h : Z) : cell := CDate (d * ns_per_day + h * 3600000000000).

(** Ridership on days 1, 2, 3 (at some hour) and weather on days 2, 3, 4. *)
Definition ridership_123 : DataFrame :=
  mkDF ["date"; "ridership"]
       [ {[ "date" := at_hour 1 5; "ridership" := CNum (qz 10) ]};
         {[ "date" := at_hour 2 17; "ridership" := CNum (qz 20) ]};
         {[ "date" := at_hour 3 8; "ridership" := CNum (qz 30) ]} ].

Definition weather_234 : DataFrame :=
  mkDF ["date"; "temperature_mean"; "precipitation"; "windspeed"]
       [ {[ "date" := at_hour 2 0; "temperature_mean" := CNum (qz 3);
            "precipitation" := CNum (qz 0); "windspeed" := CNum (qz 4) ]};
         {[ "date" := at_hour 3 0; "temperature_mean" := CNum (qz 5);
            "precipitation" := CNum (qz 2); "windspeed" := CNum (qz 6) ]};
         {[ "date" := at_hour 4 0; "temperature_mean" := CNum (qz 7);
            "precipitation" := CNum (qz 0); "windspeed" := CNum (qz 2) ]} ].

(** Two one-row tables of the same day that both carry a latitude. *)
Definition ridership_with_latitude : DataFrame :=
  mkDF ["date"; "ridership"; "latitude"]
       [ {[ "date" := at_hour 1 5; "ridership" := CNum (qz 10);
            "latitude" := CNum (qd 4075 100) ]} ].

Definition weather_with_latitude : DataFrame :=
  mkDF ["date"; "temperature_mean"; "latitude"]
       [ {[ "date" := at_hour 1 0; "temperature_mean" := CNum (qz 3);
            "latitude" := CNum (qd 4071 100) ]} ].

(** ** Notions for the rolling averages *)

(** Ascending timestamps, a missing one after every timestamp. *)
Definition date_le (a b : cell) : Prop :=
  match a, b with
  | CDate x, CDate y => (x <= y)%Z
  | _, CNull => True
  | _, _ => False
  end.

Definition ascending_by_date (l : list Row) : Prop :=
  StronglySorted (λ r1 r2, date_le (get r1 "date") (get r2 "date")) l.

(** Ten days of ridership, given out of order. *)
Definition ten_days : DataFrame :=
  mkDF ["date"; "ridership"]
       ((λ d, {[ "date" := at_hour d 0; "ridership" := CNum (qz (10 * d)) ]})
          <$> [3; 1; 2; 10; 9; 8; 7; 6; 5; 4]).

(** ** Notions for the extractor *)

(** [func] fails once for each exception of [es], in a row, from the remote
    state [n], and leaves the remote state [n']. *)
Fixpoint fails_with {Net A} (func : thunk Net A) (es : list exn) (n n' : Net)
  : Prop :=
  match es with
  | [] => n' = n
  | e :: es => ∃ n1, func n = (Raise e, n1) ∧ fails_with func es n1 n'
  end.

(** What is observed of failed attempts that are followed by another one:
    the call, the log line, the pause.  [attempt] is the index of the first
    of them. *)
Fixpoint failed_attempts (delay : Qc) (attempt : Z) (es : list exn)
  : list event :=
  match es with
  | [] => []
  | e :: es =>
      [Invoked; Logged (AttemptFailed (attempt + 1) e);
       Slept (delay * qz (attempt + 1))%Qc]
      ++ failed_attempts delay (attempt + 1) es
  end.

(** A remote state that counts the calls made, and a thunk that fails on
    the first [k] calls. *)
Definition fails_first (k : nat) : thunk nat string :=
  λ n, if (n <? k)%nat then (Raise (RequestException "timeout"), S n)
       else (Ok "payload", S n).

(** Remote services that answer every request with an error, and count
    the requests. *)
Definition services_down : Services nat :=
  {| mta_get := λ _ n, (Raise (RequestException "503"), S n);
     weather_get := λ _ n, (Raise (RequestException "503"), S n);
     app_token := None;
     today := 20000 |}.

(** ** Notions for the cache loader *)

(** A reader that knows one day, 2023-01-01. *)
Definition new_year_reader : Readers :=
  {| parse_timestamp :=
       λ s, if bool_decide (s = "2023-01-01") then Some (19358 * ns_per_day)
            else None;
     parse_number := λ _, None |}.

(** Services of which the ridership endpoint answers every request with no
    record, while the weather service answers with one day. *)
Definition ridership_dry : Services nat :=
  {| mta_get := λ _ n, (Ok [], S n);
     weather_get := λ _ n,
       (Ok (Some {[ "time" := [CStr "2023-01-01"];
                    "temperature_2m_mean" := [CNum (qz 3)];
                    "precipitation_sum" := [CNum (qz 0)];
                    "windspeed_10m_max" := [CNum (qz 4)] ]}), S n);
     app_token := None;
     today := 20000 |}.

(** * Proof automation *)

(** A closed label is not in a closed list of labels. *)
Ltac not_in_labels :=
  apply (bool_decide_eq_false_1 _); vm_compute; reflexivity.

(** Equality of two closed rationals, and of a computed cell with a
    number. *)
Ltac qc_eq := apply Qc_is_canon; vm_compute; reflexivity.
Ltac qc_cell :=
  match goal with
  | |- ?l = CNum _ =>
      let v := eval vm_compute in l in
      change l with v; apply (f_equal CNum); qc_eq
  end.

(** Comparisons of rationals as comparisons in [Q], for [lra]. *)
Ltac qc_order :=
  repeat match goal with
  | H : Qc_leb _ _ = true |- _ =>
      unfold Qc_leb in H; apply bool_decide_eq_true_1 in H
  | H : Qc_leb _ _ = false |- _ =>
      unfold Qc_leb in H; apply bool_decide_eq_false_1 in H
  | H : Qc_ltb _ _ = true |- _ =>
      unfold Qc_ltb in H; apply bool_decide_eq_true_1 in H
  | H : Qc_ltb _ _ = false |- _ =>
      unfold Qc_ltb in H; apply bool_decide_eq_false_1 in H
  | H : ¬ (_ <= _)%Qc |- _ => apply Qcnot_le_lt in H
  | H : ¬ (_ < _)%Qc |- _ => apply Qcnot_lt_le in H
  | H : _ ∧ _ |- _ => destruct H
  end;
  unfold Qcle, Qclt in *; simpl in *;
  repeat match goal with
  | |- context [Qred ?q] =>
      let v := eval vm_compute in (Qred q) in change (Qred q) with v
  | H : context [Qred ?q] |- _ =>
      let v := eval vm_compute in (Qred q) in change (Qred q) with v in H
  end;
  try (intros; first [lra | exfalso; lra]).

(** Every step of the deriver that assigns the label at hand waits for the
    raw column at hand. *)
Ltac guards_of_label :=
  unfold feature_steps, conversion_steps, time_steps, category_steps, impact_steps;
  cbn [app];
  repeat first [apply Forall_nil_2 | apply Forall_cons_2]; simpl;
  intros Hl; first [discriminate Hl | set_solver].

(** A closed decidable fact; a closed table has the datetime dtype. *)
Ltac closed_holds := apply (bool_decide_unpack _); vm_compute; exact I.
Ltac closed_dates :=
  unfold date_typed; simpl rows;
  repeat first [apply Forall_nil_2 | apply Forall_cons_2];
  vm_compute; reflexivity.

(** * Properties *)

(** ** The error monad *)

Lemma bind_Ok {A B} (m : result A) (f : A → result B) (b : B) :
  m ≫= f = Ok b ↔ ∃ a, m = Ok a ∧ f a = Ok b.
Proof.
  destruct m as [a|e]; simpl.
  - split; [intros Hf; exists a; done | intros (a' & [= <-] & Hf); done].
  - split; [done | intros (a' & [=] & _)].
Qed.

Lemma bind_ext {A B} (m : result A) (f g : A → result B) :
  (∀ a, f a = g a) → m ≫= f = m ≫= g.
Proof. intros Hfg. destruct m; simpl; [apply Hfg | done]. Qed.

Lemma bind_ret_r {A} (m : result A) : m ≫= Ok = m.
Proof. by destruct m. Qed.

Lemma bind_assoc {A B C} (m : result A) (f : A → result B) (g : B → result C) :
  (m ≫= f) ≫= g = m ≫= (λ a, f a ≫= g).
Proof. by destruct m. Qed.

Lemma mapM_Ok {A B} (f : A → result B) (l : list A) (k : list B) :
  mapM f l = Ok k ↔ Forall2 (λ x y, f x = Ok y) l k.
Proof.
  revert k. induction l as [|x l IH]; intros k; simpl.
  - split; [intros [= <-]; constructor | intros Hk; inversion Hk; done].
  - split.
    + intros (y & Hy & (k' & Hk' & [= <-])%bind_Ok)%bind_Ok.
      constructor; [done | by apply IH].
    + intros Hk. inversion Hk as [|? y ? k' Hy Hk']; subst.
      apply bind_Ok. exists y. split; [done|].
      apply bind_Ok. exists k'. split; [by apply IH | done].
Qed.

Lemma mapM_is_Ok {A B} (f : A → result B) (l : list A) :
  Forall (λ x, is_Ok (f x)) l → is_Ok (mapM f l).
Proof.
  induction 1 as [|x l [y Hy] _ [k Hk]]; [by exists [] |].
  exists (y :: k). apply mapM_Ok. constructor; [done | by apply mapM_Ok].
Qed.

(** ** Assignment of a column *)

Lemma elem_of_add_col k c cols : k ∈ add_col c cols ↔ k = c ∨ k ∈ cols.
Proof.
  unfold add_col. case_decide; [|rewrite elem_of_app, list_elem_of_singleton];
    split; intros; destruct_or?; subst; auto.
Qed.

Lemma get_insert (r : Row) c k v :
  get (<[c := v]> r) k = if decide (k = c) then v else get r k.
Proof.
  unfold get. case_decide as Hk.
  - subst. by rewrite lookup_insert_eq.
  - by rewrite lookup_insert_ne.
Qed.

Lemma assign_Ok c f df df' :
  assign c f df = Ok df' ↔
  columns df' = add_col c (columns df)
  ∧ Forall2 (row_step c f) (rows df) (rows df').
Proof.
  unfold assign. rewrite bind_Ok. split.
  - intros (rs & Hrs%mapM_Ok & [= <-]). simpl. split; [done|].
    eapply Forall2_impl; [done|]. intros r r' (v & Hv & [= <-])%bind_Ok. by exists v.
  - intros [Hc Hr]. exists (rows df'). split.
    + apply mapM_Ok. eapply Forall2_impl; [done|].
      intros r r' (v & Hv & ->). apply bind_Ok. by exists v.
    + destruct df'; simpl in *. by rewrite Hc.
Qed.

Lemma assign_is_Ok c f df :
  Forall (λ r, is_Ok (f r)) (rows df) → is_Ok (assign c f df).
Proof.
  intros Hf. unfold assign.
  destruct (mapM_is_Ok (λ r, v ← f r; mret (<[c:=v]> r)) (rows df)) as [rs Hrs].
  - eapply Forall_impl; [done|]. intros r [v Hv]. rewrite Hv. by eexists.
  - rewrite Hrs. by eexists.
Qed.

Lemma when_col_Ok c step df df' :
  when_col c step df = Ok df' ↔
  ((c ∈ columns df ∧ step df = Ok df') ∨ ((c ∉ columns df) ∧ df' = df)).
Proof.
  unfold when_col. case_decide.
  - split; [by left | by intros [[_ ?]|[? _]]].
  - split; [intros [= <-]; by right | by intros [[? _]|[_ ->]]].
Qed.

(** ** The deriver runs its list of guarded assignments *)

Lemma run_steps_app steps1 steps2 df :
  run_steps (steps1 ++ steps2) df = run_steps steps1 df ≫= run_steps steps2.
Proof.
  revert df. induction steps1 as [|s steps1 IH]; intros df; simpl; [done|].
  rewrite bind_assoc. by apply bind_ext.
Qed.

Lemma when_col_step c l f df :
  when_col c (assign l f) df = run_step (mkStep [c] l f) df.
Proof.
  unfold when_col, run_step; simpl.
  destruct (decide (c ∈ columns df)) as [Hc|Hc], (decide (Forall _ _)) as [Hf|Hf];
    try done.
  - destruct Hf. by constructor.
  - by inversion Hf.
Qed.

Lemma assign_step l f df : assign l f df = run_step (mkStep [] l f) df.
Proof. reflexivity. Qed.

Section Deriver.
Context `{Readers}.

Lemma unit_conversions_steps df :
  unit_conversions df = run_steps conversion_steps df.
Proof.
  unfold unit_conversions; simpl. rewrite !when_col_step.
  apply bind_ext; intros d1. rewrite !when_col_step.
  apply bind_ext; intros d2. rewrite !when_col_step. by rewrite bind_ret_r.
Qed.

Lemma time_features_steps df : time_features df = run_steps time_steps df.
Proof.
  unfold time_features; simpl.
  repeat (rewrite assign_step; apply bind_ext; intros ?).
  by rewrite assign_step, bind_ret_r.
Qed.

Lemma weather_categories_steps df :
  weather_categories df = run_steps category_steps df.
Proof.
  unfold weather_categories; simpl. rewrite when_col_step.
  apply bind_ext; intros d1.
  unfold when_col, run_step; simpl.
  destruct (decide ("precipitation_in" ∈ columns d1)) as [Hc|Hc].
  - destruct (decide (Forall _ _)) as [Hf|[]]; [|by constructor].
    destruct (assign "rain_category" _ d1) as [d2|e] eqn:E; simpl; [|done].
    apply assign_Ok in E as [E _].
    destruct (decide (Forall _ _)) as [|[]]; [by rewrite bind_ret_r|].
    constructor; [|done]. rewrite E, elem_of_add_col. by right.
  - destruct (decide (Forall _ _)) as [Hf|Hf]; [by inversion Hf|]. simpl.
    destruct (decide (Forall _ _)) as [Hf'|Hf']; [by inversion Hf'|done].
Qed.

Lemma impact_score_steps df : impact_score df = run_steps impact_steps df.
Proof.
  unfold impact_score, run_steps, impact_steps, run_step; simpl.
  destruct (decide (Forall _ _)) as [Hf|Hf]; simpl.
  - destruct (assign "weather_impact_score" _ df) as [d2|e] eqn:E; simpl; [|done].
    apply assign_Ok in E as [E _].
    destruct (decide (Forall _ _)) as [|[]]; [by rewrite bind_ret_r|].
    eapply Forall_impl; [done|]. intros c Hc. rewrite E, elem_of_add_col. by right.
  - by destruct (decide (Forall _ _)).
Qed.

Lemma add_derived_features_steps df :
  "date" ∈ columns df → add_derived_features df = run_steps feature_steps df.
Proof.
  intros Hd. unfold add_derived_features, feature_steps.
  destruct (decide _); [|done]. cbn [run_steps].
  rewrite assign_step. apply bind_ext; intros d1.
  rewrite run_steps_app, unit_conversions_steps. apply bind_ext; intros d2.
  rewrite run_steps_app, time_features_steps. apply bind_ext; intros d3.
  rewrite run_steps_app, weather_categories_steps. apply bind_ext; intros d4.
  apply impact_score_steps.
Qed.

End Deriver.

(** ** Lists of guarded assignments, in general *)

Lemma run_step_Ok s df df' :
  run_step s df = Ok df' ↔
  ((Forall (λ c, c ∈ columns df) (guard s)
    ∧ assign (label s) (fn s) df = Ok df')
   ∨ (¬ Forall (λ c, c ∈ columns df) (guard s) ∧ df' = df)).
Proof.
  unfold run_step. case_decide.
  - split; [by left | by intros [[_ ?]|[? _]]].
  - split; [intros [= <-]; by right | by intros [[? _]|[_ ->]]].
Qed.

Lemma agree_outside_refl L r : agree_outside L r r.
Proof. by intros k _. Qed.

Lemma agree_outside_trans L r1 r2 r3 :
  agree_outside L r1 r2 → agree_outside L r2 r3 → agree_outside L r1 r3.
Proof. intros H12 H23 k Hk. by rewrite H23, H12. Qed.

Lemma agree_outside_weaken L L' r r' :
  (∀ k, k ∈ L → k ∈ L') → agree_outside L r r' → agree_outside L' r r'.
Proof. intros HL Hr k Hk. apply Hr. intros ?. apply Hk. by apply HL. Qed.

Lemma row_step_agree c f r r' : row_step c f r r' → agree_outside [c] r r'.
Proof.
  intros (v & _ & ->) k Hk. rewrite get_insert. case_decide; [|done].
  subst. destruct Hk. by left.
Qed.

Lemma run_step_rows s df df' :
  run_step s df = Ok df' →
  Forall2 (agree_outside [label s]) (rows df) (rows df').
Proof.
  intros [[_ [_ Hr]%assign_Ok]|[_ ->]]%run_step_Ok.
  - eapply Forall2_impl; [done|]. intros r r'. apply row_step_agree.
  - apply Forall_Forall2_diag, Forall_forall. intros r _. apply agree_outside_refl.
Qed.

Lemma run_step_mem s df df' k :
  run_step s df = Ok df' →
  (k ∈ columns df → k ∈ columns df')
  ∧ (k ∈ columns df' → k ∈ columns df ∨ k = label s).
Proof.
  intros [[_ [-> _]%assign_Ok]|[_ ->]]%run_step_Ok.
  - rewrite elem_of_add_col. tauto.
  - tauto.
Qed.

Lemma run_steps_mem steps df df' k :
  run_steps steps df = Ok df' → k ∈ columns df → k ∈ columns df'.
Proof.
  revert df. induction steps as [|s steps IH]; intros df; simpl.
  - by intros [= <-].
  - intros (d1 & H1 & H2)%bind_Ok Hk. eapply IH; [done|].
    by apply (run_step_mem _ _ _ k H1).
Qed.

Lemma run_steps_mem_inv steps df df' k :
  run_steps steps df = Ok df' → k ∈ columns df' →
  k ∈ columns df ∨ k ∈ label <$> steps.
Proof.
  revert df. induction steps as [|s steps IH]; intros df; simpl.
  - intros [= <-]. by left.
  - intros (d1 & H1 & H2)%bind_Ok Hk.
    destruct (IH _ H2 Hk) as [Hk1|Hk1].
    + destruct (proj2 (run_step_mem _ _ _ k H1) Hk1) as [?| ->]; [by left|].
      right. by left.
    + right. by right.
Qed.

Lemma run_steps_agree steps df df' :
  run_steps steps df = Ok df' →
  Forall2 (agree_outside (label <$> steps)) (rows df) (rows df').
Proof.
  revert df. induction steps as [|s steps IH]; intros df; simpl.
  - intros [= <-]. apply Forall_Forall2_diag, Forall_forall.
    intros r _. apply agree_outside_refl.
  - intros (d1 & H1 & H2)%bind_Ok.
    eapply Forall2_trans; [|by apply run_step_rows|by apply IH].
    intros r1 r2 r3 H12 H23.
    eapply agree_outside_trans; (eapply agree_outside_weaken; [|done]).
    + intros k ->%list_elem_of_singleton. by left.
    + intros k ?. by right.
Qed.

Lemma run_steps_length steps df df' :
  run_steps steps df = Ok df' → length (rows df') = length (rows df).
Proof. intros Hr%run_steps_agree. symmetry. by eapply Forall2_length. Qed.

(** A label whose every assignment waits for a column that never comes
    keeps its cells. *)
Lemma run_steps_disabled steps c df df' :
  run_steps steps df = Ok df' →
  (∀ s, s ∈ steps → label s = c →
        ∃ g, g ∈ guard s ∧ (g ∉ columns df) ∧ (g ∉ label <$> steps)) →
  Forall2 (λ r r', get r' c = get r c) (rows df) (rows df').
Proof.
  revert df. induction steps as [|s steps IH]; intros df; simpl.
  - intros [= <-] _. by apply Forall_Forall2_diag, Forall_forall.
  - intros (d1 & H1 & H2)%bind_Ok Hdis.
    assert (H1' : Forall2 (λ r r', get r' c = get r c) (rows df) (rows d1)).
    { apply run_step_Ok in H1 as [[Hg [_ Hr]%assign_Ok]|[_ ->]].
      - eapply Forall2_impl; [done|]. intros r r' Hs. apply row_step_agree in Hs.
        apply Hs. intros ->%list_elem_of_singleton.
        destruct (Hdis s ltac:(by left) eq_refl) as (g & Hgs & Hgc & _).
        apply Hgc. by apply (proj1 (Forall_forall _ _) Hg).
      - by apply Forall_Forall2_diag, Forall_forall. }
    assert (H2' : Forall2 (λ r r', get r' c = get r c) (rows d1) (rows df')).
    { apply (IH _ H2). intros s' Hs' Hl.
      destruct (Hdis s' ltac:(by right) Hl) as (g & Hg & Hgc & Hgl).
      exists g. split; [done|]. split.
      - intros [?| ->]%(run_step_mem _ _ _ g H1); [done|].
        apply Hgl. by left.
      - intros ?. apply Hgl. by right. }
    eapply Forall2_trans; [|exact H1'|exact H2'].
    intros r1 r2 r3 H12 H23; simpl in *. by rewrite H23.
Qed.

(** The cell a step assigns, when no later step touches it nor what it
    reads, is its function of the finished row. *)
Lemma run_steps_value pre s post D df df' :
  run_steps (pre ++ s :: post) df = Ok df' →
  reads_only D (fn s) →
  label s ∉ label <$> post →
  (∀ d, d ∈ D → d ≠ label s ∧ d ∉ label <$> post) →
  Forall (λ g, g ∈ columns df' ∧ g ≠ label s ∧ g ∉ label <$> post) (guard s) →
  Forall (λ r', fn s r' = Ok (get r' (label s))) (rows df').
Proof.
  rewrite run_steps_app. simpl.
  intros (mid & Hpre & (mid' & Hs & Hpost)%bind_Ok)%bind_Ok Hreads Hl HD Hg.
  apply run_step_Ok in Hs as [[_ [_ Hr]%assign_Ok]|[Hng ->]].
  - pose proof (run_steps_agree _ _ _ Hpost) as Ha.
    apply Forall_forall. intros r' [i Hi]%list_elem_of_lookup.
    destruct (Forall2_lookup_r _ _ _ _ _ Ha Hi) as (r1 & Hi1 & Hag).
    destruct (Forall2_lookup_r _ _ _ _ _ Hr Hi1) as (r0 & Hi0 & v & Hv & ->).
    rewrite (Hag _ Hl), get_insert. case_decide; [|done].
    rewrite <- Hv. apply Hreads. intros d Hd. destruct (HD d Hd) as [Hne Hnp].
    rewrite (Hag _ Hnp), get_insert. by case_decide.
  - destruct Hng. eapply Forall_impl; [done|]. intros g (Hg' & Hne & Hnp); simpl in *.
    by destruct (run_steps_mem_inv _ _ _ _ Hpost Hg').
Qed.

Lemma run_steps_value_at n s D steps df df' :
  steps !! n = Some s →
  run_steps steps df = Ok df' →
  reads_only D (fn s) →
  label s ∉ label <$> drop (S n) steps →
  Forall (λ d, d ≠ label s ∧ d ∉ label <$> drop (S n) steps) D →
  Forall (λ g, g ∈ columns df' ∧ g ≠ label s ∧ g ∉ label <$> drop (S n) steps)
         (guard s) →
  Forall (λ r', fn s r' = Ok (get r' (label s))) (rows df').
Proof.
  intros Hn Hrun Hreads Hl HD Hg.
  rewrite <- (take_drop_middle _ _ _ Hn) in Hrun.
  eapply run_steps_value; try done.
  intros d Hd. by apply (proj1 (Forall_forall _ _) HD).
Qed.

Lemma run_steps_total (P : Row → Prop) steps df :
  Forall (λ s, ∀ r, P r → ∃ v, fn s r = Ok v ∧ P (<[label s := v]> r)) steps →
  Forall P (rows df) →
  ∃ df', run_steps steps df = Ok df' ∧ Forall P (rows df').
Proof.
  intros Hsteps. revert df. induction Hsteps as [|s steps Hs _ IH]; intros df HP.
  - by exists df.
  - simpl. unfold run_step at 1. case_decide as Hg.
    + destruct (assign_is_Ok (label s) (fn s) df) as [d1 Hd1].
      { eapply Forall_impl; [done|]. intros r Hr.
        destruct (Hs r Hr) as (v & Hv & _). by exists v. }
      rewrite Hd1. simpl. apply IH.
      apply assign_Ok in Hd1 as [_ Hr].
      apply Forall_forall. intros r' [i Hi]%list_elem_of_lookup.
      destruct (Forall2_lookup_r _ _ _ _ _ Hr Hi) as (r & Hi0 & v & Hv & ->).
      destruct (Hs r) as (v' & Hv' & HP').
      { eapply (proj1 (Forall_forall _ _) HP), list_elem_of_lookup_2, Hi0. }
      rewrite Hv in Hv'. by injection Hv' as <-.
    + simpl. by apply IH.
Qed.

Lemma numeric_num1 f v : numeric v = true → ∃ w, num1 f v = Ok w ∧ numeric w = true.
Proof. destruct v; try done; by eexists. Qed.

Lemma numeric_cut_cell bins labels v :
  numeric v = true → is_Ok (cut_cell bins labels v).
Proof. destruct v; try done; by eexists. Qed.

Section Deriver.
Context `{Readers}.

Lemma to_datetime_dated v w :
  to_datetime v = Ok w → match w with CDate _ | CNull => True | _ => False end.
Proof.
  destruct v; simpl; try (intros [= <-]; done).
  destruct (parse_timestamp s); by intros [= <-].
Qed.

Lemma dated_row_numeric r c :
  dated_row r →
  c ∈ ["temperature_mean"; "precipitation"; "windspeed";
       "temperature_f"; "precipitation_in"; "windspeed_mph"] →
  numeric (get r c) = true.
Proof. intros [_ Hn] Hc. by apply (proj1 (Forall_forall _ _) Hn). Qed.

Lemma dated_row_insert_other r c v :
  dated_row r →
  c ∉ ["date"; "temperature_mean"; "precipitation"; "windspeed";
       "temperature_f"; "precipitation_in"; "windspeed_mph"] →
  dated_row (<[c := v]> r).
Proof.
  intros [Hd Hn] Hc. split.
  - rewrite get_insert. case_decide; [|done]. subst. destruct Hc. by left.
  - eapply Forall_forall. intros k Hk. rewrite get_insert. case_decide.
    + subst. destruct Hc. by right.
    + by apply (proj1 (Forall_forall _ _) Hn).
Qed.

Lemma dated_row_insert_numeric r c v :
  dated_row r → c ≠ "date" → numeric v = true → dated_row (<[c := v]> r).
Proof.
  intros [Hd Hn] Hc Hv. split.
  - rewrite get_insert. by case_decide.
  - eapply Forall_forall. intros k Hk. rewrite get_insert. case_decide; [done|].
    by apply (proj1 (Forall_forall _ _) Hn).
Qed.

Lemma dated_row_dt_field r f : dated_row r → is_Ok (dt_field f (get r "date")).
Proof. intros [Hd _]. destruct (get r "date"); try done; by eexists. Qed.

(** Every step before the impact score keeps a dated row dated. *)
Lemma plain_steps_keep_dated :
  Forall (λ s, ∀ r, dated_row r →
                    ∃ v, fn s r = Ok v ∧ dated_row (<[label s := v]> r))
         (conversion_steps ++ time_steps ++ category_steps).
Proof.
  unfold conversion_steps, time_steps, category_steps. cbn [app].
  repeat first [apply Forall_nil_2 | apply Forall_cons_2]; intros r Hr; simpl.
  1-3: (match goal with
        | Hr : dated_row ?r |- context [num1 ?f (get ?r ?c)] =>
          destruct (numeric_num1 f (get r c)) as (w & Hw & Hnw);
            [apply dated_row_numeric; [done | set_solver] |];
          exists w; split; [done | by apply dated_row_insert_numeric]
        end).
  1-6,9: (match goal with
        | Hr : dated_row ?r |- context [dt_field ?f _] =>
          destruct (dated_row_dt_field r f Hr) as [v Hv];
          exists v; split; [done|]; apply dated_row_insert_other; [done|];
          not_in_labels
        end).
  1-3: (eexists; split; [done|]; apply dated_row_insert_other; [done|];
        not_in_labels).
  1-2: (match goal with
        | Hr : dated_row ?r |- context [cut_cell ?b ?l (get ?r ?c)] =>
          destruct (numeric_cut_cell b l (get r c)) as [v Hv];
            [apply dated_row_numeric; [done | set_solver] |];
          exists v; split; [done|]; apply dated_row_insert_other; [done|];
          not_in_labels
        end).
  assert (Hn : numeric (get r "precipitation_in") = true)
    by (apply dated_row_numeric; [done | set_solver]).
  destruct (get r "precipitation_in"); try done;
    (eexists; split; [done|]; apply dated_row_insert_other; [done|]; not_in_labels).
Qed.

Lemma weather_impact_score_numeric r :
  dated_row r → ∃ v, weather_impact_score r = Ok v ∧ numeric v = true.
Proof.
  intros Hr. unfold weather_impact_score.
  assert (H1 : numeric (get r "temperature_f") = true)
    by (apply dated_row_numeric; [done | set_solver]).
  assert (H2 : numeric (get r "precipitation_in") = true)
    by (apply dated_row_numeric; [done | set_solver]).
  assert (H3 : numeric (get r "windspeed_mph") = true)
    by (apply dated_row_numeric; [done | set_solver]).
  destruct (get r "temperature_f"), (get r "precipitation_in"),
    (get r "windspeed_mph"); try done; by eexists.
Qed.

Lemma impact_steps_total df :
  Forall dated_row (rows df) → is_Ok (run_steps impact_steps df).
Proof.
  intros HP. rewrite <- impact_score_steps. unfold impact_score.
  case_decide; [|by eexists].
  destruct (assign_is_Ok "weather_impact_score" weather_impact_score df)
    as [d1 Hd1].
  { eapply Forall_impl; [done|]. intros r Hr.
    destruct (weather_impact_score_numeric r Hr) as (v & Hv & _). by exists v. }
  rewrite Hd1. simpl. apply assign_is_Ok.
  apply assign_Ok in Hd1 as [_ Hr].
  apply Forall_forall. intros r' [i Hi]%list_elem_of_lookup.
  destruct (Forall2_lookup_r _ _ _ _ _ Hr Hi) as (r & Hi0 & v & Hv & ->).
  destruct (weather_impact_score_numeric r) as (v' & Hv' & Hn).
  { eapply (proj1 (Forall_forall _ _) HP), list_elem_of_lookup_2, Hi0. }
  rewrite Hv in Hv'. injection Hv' as <-.
  simpl. rewrite get_insert. case_decide; [|done].
  by apply numeric_cut_cell.
Qed.

(** On a typed table with a date column the deriver returns. *)
Lemma add_derived_features_total df :
  "date" ∈ columns df → feature_typed df → is_Ok (add_derived_features df).
Proof.
  intros Hd Ht. rewrite add_derived_features_steps by done.
  change feature_steps
    with (mkStep [] "date" (λ r, to_datetime (get r "date"))
            :: (conversion_steps ++ time_steps ++ category_steps) ++ impact_steps).
  cbn [run_steps]. rewrite <- assign_step.
  destruct (assign_is_Ok "date" (λ r, to_datetime (get r "date")) df) as [d1 Hd1].
  { eapply Forall_impl; [exact Ht|]. by intros r [? _]. }
  rewrite Hd1.
  change (is_Ok (run_steps ((conversion_steps ++ time_steps ++ category_steps)
                              ++ impact_steps) d1)).
  rewrite run_steps_app.
  destruct (run_steps_total dated_row
              (conversion_steps ++ time_steps ++ category_steps) d1)
    as (d2 & -> & H2).
  { apply plain_steps_keep_dated. }
  { apply assign_Ok in Hd1 as [_ Hr].
    apply Forall_forall. intros r' [i Hi]%list_elem_of_lookup.
    destruct (Forall2_lookup_r _ _ _ _ _ Hr Hi) as (r & Hi0 & v & Hv & ->).
    assert (Hr0 : feature_typed_row r).
    { eapply (proj1 (Forall_forall _ _) Ht), list_elem_of_lookup_2, Hi0. }
    destruct Hr0 as [_ Hn]. split.
    - rewrite get_insert. case_decide; [|done]. by eapply to_datetime_dated.
    - eapply Forall_forall. intros k Hk. rewrite get_insert. case_decide.
      + subst. exfalso. revert Hk. not_in_labels.
      + by apply (proj1 (Forall_forall _ _) Hn). }
  simpl. by apply impact_steps_total.
Qed.

(** The labels the deriver may assign. *)
Lemma feature_labels :
  label <$> feature_steps =
  ["date"; "temperature_f"; "precipitation_in"; "windspeed_mph"; "year";
   "month"; "day"; "day_of_week"; "day_name"; "week_of_year"; "is_weekend";
   "is_weekday"; "quarter"; "season"; "temp_category"; "rain_category";
   "is_rainy"; "weather_impact_score"; "weather_condition"].
Proof. reflexivity. Qed.

Lemma reads_only_cell (g : cell → result cell) d :
  reads_only [d] (λ r, g (get r d)).
Proof. intros r1 r2 Hd. rewrite (Hd d); [done | by left]. Qed.

Lemma weather_impact_score_reads :
  reads_only ["temperature_f"; "precipitation_in"; "windspeed_mph"]
             weather_impact_score.
Proof.
  intros r1 r2 Hd. unfold weather_impact_score.
  rewrite !(Hd _) by set_solver. done.
Qed.

(** A conversion that runs: the converted cell of every finished row is
    the conversion of its raw cell. *)
Lemma conversion_value n raw conv f df df' :
  feature_steps !! n = Some (mkStep [raw] conv (λ r, num1 f (get r raw))) →
  conv ∉ label <$> drop (S n) feature_steps →
  raw ∉ label <$> feature_steps →
  raw ≠ conv →
  "date" ∈ columns df → add_derived_features df = Ok df' →
  raw ∈ columns df →
  Forall2 (λ r r', num1 f (get r raw) = Ok (get r' conv)) (rows df) (rows df').
Proof.
  intros Hn Hconv Hraw Hne Hd Hrun Hin.
  rewrite add_derived_features_steps in Hrun by done.
  pose proof (run_steps_agree _ _ _ Hrun) as Ha.
  pose proof (run_steps_value_at n _ [raw] _ _ _ Hn Hrun
                (reads_only_cell _ _) Hconv) as Hv. simpl in Hv.
  assert (Hlate : raw ∉ label <$> drop (S n) feature_steps).
  { intros Hin'. apply Hraw.
    rewrite <- (take_drop (S n) feature_steps), fmap_app. apply elem_of_app. by right. }
  assert (Hall : Forall (λ r', num1 f (get r' raw) = Ok (get r' conv)) (rows df')).
  { apply Hv; (apply Forall_cons_2; [|apply Forall_nil_2]).
    - done.
    - split; [by eapply run_steps_mem | done]. }
  apply Forall2_same_length_lookup. split; [by eapply Forall2_length|].
  intros i r r' Hi Hi'.
  pose proof (Forall2_lookup_lr _ _ _ _ _ _ Ha Hi Hi') as Hag.
  rewrite <- (Hag raw Hraw).
  eapply (proj1 (Forall_forall _ _) Hall), list_elem_of_lookup_2, Hi'.
Qed.

(** A conversion that does not run leaves the cells under its label. *)
Lemma conversion_skipped raw conv df df' :
  Forall (λ s, label s = conv → raw ∈ guard s) feature_steps →
  raw ∉ label <$> feature_steps →
  "date" ∈ columns df → add_derived_features df = Ok df' →
  raw ∉ columns df →
  Forall2 (λ r r', get r' conv = get r conv) (rows df) (rows df').
Proof.
  intros Hg Hraw Hd Hrun Hnin.
  rewrite add_derived_features_steps in Hrun by done.
  eapply run_steps_disabled; [done|].
  intros s Hs Hl. exists raw. split; [|done].
  by apply (proj1 (Forall_forall _ _) Hg).
Qed.


End Deriver.

(** ** Order on the rationals *)

Lemma Qc_leb_le x y : Qc_leb x y = true ↔ (x <= y)%Qc.
Proof. unfold Qc_leb. apply bool_decide_eq_true. Qed.

Lemma Qc_ltb_lt x y : Qc_ltb x y = true ↔ (x < y)%Qc.
Proof. unfold Qc_ltb. apply bool_decide_eq_true. Qed.

Lemma Qc_ltb_leb x y : Qc_ltb x y = negb (Qc_leb y x).
Proof.
  unfold Qc_ltb, Qc_leb.
  destruct (bool_decide_reflect (x < y)%Qc), (bool_decide_reflect (y <= x)%Qc);
    try done.
  - exfalso. by eapply Qclt_not_le.
  - exfalso. by apply n, Qcnot_le_lt.
Qed.

(** ** Binning *)

Lemma cut_temp_bins t :
  cut temp_bins temp_labels t =
  Some (if Qc_leb t (qz 32) then "Freezing"
        else if Qc_leb t (qz 50) then "Cold"
        else if Qc_leb t (qz 68) then "Mild"
        else if Qc_leb t (qz 85) then "Warm"
        else "Hot").
Proof.
  unfold temp_bins, temp_labels. simpl. rewrite !Qc_ltb_leb.
  by destruct (Qc_leb t (qz 32)), (Qc_leb t (qz 50)), (Qc_leb t (qz 68)),
    (Qc_leb t (qz 85)).
Qed.

Lemma cut_condition_bins s :
  cut condition_bins condition_labels s =
  Some (if Qc_leb s (qd 3 10) then "Good"
        else if Qc_leb s (qd 6 10) then "Moderate"
        else "Poor").
Proof.
  unfold condition_bins, condition_labels. simpl. rewrite !Qc_ltb_leb.
  by destruct (Qc_leb s (qd 3 10)), (Qc_leb s (qd 6 10)).
Qed.

(** The five buckets partition the line at 32, 50, 68 and 85, each bound
    belonging to the bucket below it. *)
Lemma temp_buckets t :
  ∃ l, cut temp_bins temp_labels t = Some l
    ∧ l ∈ temp_labels
    ∧ (l = "Freezing" ↔ (t <= qz 32)%Qc)
    ∧ (l = "Cold" ↔ (qz 32 < t)%Qc ∧ (t <= qz 50)%Qc)
    ∧ (l = "Mild" ↔ (qz 50 < t)%Qc ∧ (t <= qz 68)%Qc)
    ∧ (l = "Warm" ↔ (qz 68 < t)%Qc ∧ (t <= qz 85)%Qc)
    ∧ (l = "Hot" ↔ (qz 85 < t)%Qc).
Proof.
  eexists. split; [apply cut_temp_bins|].
  destruct (Qc_leb t (qz 32)) eqn:E1, (Qc_leb t (qz 50)) eqn:E2,
    (Qc_leb t (qz 68)) eqn:E3, (Qc_leb t (qz 85)) eqn:E4;
    (split; [unfold temp_labels; set_solver|]);
    repeat split; try discriminate; try done; qc_order.
Qed.

Section Deriver.
Context `{Readers}.

(** The cell a guarded step computes from one column, in every row of the
    finished table. *)
Lemma derived_cell n src dst g df df' :
  feature_steps !! n = Some (mkStep [src] dst (λ r, g (get r src))) →
  dst ∉ label <$> drop (S n) feature_steps →
  src ∉ label <$> drop (S n) feature_steps →
  src ≠ dst →
  "date" ∈ columns df → add_derived_features df = Ok df' →
  src ∈ columns df' →
  Forall (λ r', g (get r' src) = Ok (get r' dst)) (rows df').
Proof.
  intros Hn Hdst Hsrc Hne Hd Hrun Hin.
  rewrite add_derived_features_steps in Hrun by done.
  apply (run_steps_value_at n _ [src] _ _ _ Hn Hrun (reads_only_cell _ _) Hdst);
    (apply Forall_cons_2; [|apply Forall_nil_2]); done.
Qed.


(** C1, the code at a cold and wet day (5 °F, 0.5 in, no wind): the score is
    0.4*2 + 0.4*1 + 0.2*0 = 6/5, above 1, where the formula with every
    summand clipped gives 4/5; the condition read from it is Poor. *)
Theorem impact_score_exceeds_one :
  ∃ r',
    add_derived_features cold_wet_day
    = Ok (mkDF (columns cold_wet_day
                  ++ ["temperature_f"; "precipitation_in"; "windspeed_mph";
                      "year"; "month"; "day"; "day_of_week"; "day_name";
                      "week_of_year"; "is_weekend"; "is_weekday"; "quarter";
                      "season"; "temp_category"; "rain_category"; "is_rainy";
                      "weather_impact_score"; "weather_condition"]) [r'])
    ∧ get r' "temperature_f" = CNum (qz 5)
    ∧ get r' "precipitation_in" = CNum (qd 1 2)
    ∧ get r' "windspeed_mph" = CNum (qz 0)
    ∧ get r' "weather_impact_score" = CNum (qd 6 5)
    ∧ (qz 1 < qd 6 5)%Qc
    ∧ weather_impact_score_spec (qz 5) (qd 1 2) (qz 0) = qd 4 5
    ∧ get r' "weather_condition" = CStr "Poor".
Proof.
  eexists. split; [vm_compute; reflexivity|].
  repeat split; try qc_cell; try qc_eq; try (vm_compute; reflexivity).
Qed.

End Deriver.

(** ** The state and error monad *)

Lemma M_bind_Ok {S A B} (m : M S A) (f : A → M S B) s a s' :
  m s = (Ok a, s') → (m ≫= f) s = f a s'.
Proof. intros Hm. unfold mbind, M_bind. by rewrite Hm. Qed.

Lemma M_bind_Raise {S A B} (m : M S A) (f : A → M S B) s e s' :
  m s = (Raise e, s') → (m ≫= f) s = (Raise e, s').
Proof. intros Hm. unfold mbind, M_bind. by rewrite Hm. Qed.

(** ** Duplicates *)

Lemma Forall_sublist_of {A} (P : A → Prop) (l k : list A) :
  k `sublist_of` l → Forall P l → Forall P k.
Proof.
  intros Hs Hl. apply Forall_forall. intros x Hx.
  eapply (proj1 (Forall_forall _ _) Hl), elem_of_sublist; done.
Qed.

Lemma drop_masked_sublist {A} (mask : list bool) (l : list A) :
  drop_masked mask l `sublist_of` l.
Proof.
  revert mask. induction l as [|x l IH]; intros [|[] mask]; simpl;
    try constructor; try apply IH. apply sublist_nil_l.
Qed.

Lemma duplicated_from_length cols seen l :
  length (duplicated_from cols seen l) = length l.
Proof. revert seen. induction l; intros seen; simpl; [done | by rewrite IHl]. Qed.

Lemma count_true_cons b mask :
  count_true (b :: mask) = ((if b then 1 else 0) + count_true mask)%nat.
Proof. unfold count_true. by destruct b. Qed.

Lemma drop_masked_none {A} (mask : list bool) (l : list A) :
  length mask = length l → count_true mask = 0%nat → drop_masked mask l = l.
Proof.
  revert mask. induction l as [|x l IH]; intros [|b mask]; simpl; try done.
  intros [= Hlen]. rewrite count_true_cons. destruct b; [done|].
  intros Hc. by rewrite IH.
Qed.

(** Dropping the rows masked as duplicated keeps the first occurrences. *)
Lemma drop_duplicated_from cols seen l :
  drop_masked (duplicated_from cols seen l) l
  = omap id
      (imap (λ i r,
               if decide (Exists (same_row cols r) (seen ++ take i l)) then None
               else Some r)
            l).
Proof.
  revert seen. induction l as [|r l IH]; intros seen; simpl; [done|].
  rewrite app_nil_r.
  assert (Hrest :
    drop_masked (duplicated_from cols (seen ++ [r]) l) l
    = omap id
        (imap ((λ i r0,
                  if decide (Exists (same_row cols r0) (seen ++ take i (r :: l)))
                  then None else Some r0) ∘ S) l)).
  { rewrite IH. f_equal. apply imap_ext. intros i x _. simpl.
    by rewrite <- app_assoc. }
  destruct (bool_decide_reflect (Exists (same_row cols r) seen)) as [Hd|Hd];
    destruct (decide (Exists (same_row cols r) seen)); try done; simpl;
    by rewrite Hrest.
Qed.

Lemma drop_duplicates_rows df :
  rows (drop_duplicates df) = first_occurrences (columns df) (rows df).
Proof. unfold drop_duplicates, duplicated. simpl. apply drop_duplicated_from. Qed.

(** ** Extremes of a date column *)

Lemma series_extreme_dates pick acc l :
  is_date acc = true → Forall (λ v, is_date v = true) l →
  ∃ v, series_extreme pick acc l = Ok v ∧ is_date v = true.
Proof.
  intros Hacc Hl. revert acc Hacc.
  induction Hl as [|v l Hv _ IH]; intros acc Hacc; simpl; [by exists acc|].
  destruct v; try done; [by apply IH|].
  destruct acc; try done; [by apply IH|]. simpl.
  apply IH. by destruct (pick _).
Qed.

(** ** What the validator returns and records *)

Lemma dropna_date df :
  "date" ∈ columns df →
  dropna ["date"] df
  = Ok (mkDF (columns df) (filter (λ r, get r "date" ≠ CNull) (rows df))).
Proof.
  intros Hd. unfold dropna.
  rewrite filter_cons. destruct (decide ("date" ∉ columns df)) as [Hn|_]; [done|].
  rewrite filter_nil. do 2 f_equal.
  apply list_filter_iff. intros r. rewrite Forall_cons, Forall_nil. tauto.
Qed.

Lemma first_occurrences_mask cols l :
  first_occurrences cols l = drop_masked (duplicated_from cols [] l) l.
Proof. exact (eq_sym (drop_duplicated_from cols [] l)). Qed.

Lemma first_occurrences_sublist cols l : first_occurrences cols l `sublist_of` l.
Proof. rewrite first_occurrences_mask. apply drop_masked_sublist. Qed.

(** The rows the validator keeps: the dated ones, first occurrences only. *)
Lemma cleaned_rows df :
  let dated := filter (λ r, get r "date" ≠ CNull) (rows df) in
  let duplicates := count_true (duplicated (mkDF (columns df) dated)) in
  rows (if (0 <? duplicates)%nat
        then drop_duplicates (mkDF (columns df) dated)
        else mkDF (columns df) dated)
  = first_occurrences (columns df) dated
  ∧ columns (if (0 <? duplicates)%nat
             then drop_duplicates (mkDF (columns df) dated)
             else mkDF (columns df) dated) = columns df.
Proof.
  intros dated duplicates.
  destruct (0 <? duplicates)%nat eqn:E; simpl; split; try done.
  - symmetry. apply first_occurrences_mask.
  - apply Nat.ltb_ge in E. rewrite first_occurrences_mask.
    symmetry. apply drop_masked_none.
    + apply duplicated_from_length.
    + unfold duplicates, duplicated in E. simpl in E. lia.
Qed.

Lemma validate_data_quality_Ok df name qm :
  df_empty df = false → "date" ∈ columns df → date_typed df →
  let cleaned :=
    mkDF (columns df)
         (first_occurrences (columns df)
            (filter (λ r, get r "date" ≠ CNull) (rows df))) in
  let score := (qn (len cleaned) / qn (len df) * qz 100)%Qc in
  ∃ rep,
    validate_data_quality df name qm = (Ok cleaned, <[name := rep]> qm)
    ∧ dataset rep = name
    ∧ initial_rows rep = len df
    ∧ final_rows rep = Some (len cleaned)
    ∧ rows_removed rep = Some (Z.of_nat (len df) - Z.of_nat (len cleaned))
    ∧ quality_score rep = Some (round2 score)
    ∧ status rep = (if Qc_leb (qz 90) score then PASSED else WARNING).
Proof.
  intros Hne Hd Ht cleaned score.
  unfold validate_data_quality. rewrite Hne.
  rewrite (dropna_date df Hd).
  unfold mbind, M_bind, lift, modify, mret, M_ret. simpl.
  set (dated := filter (λ r, get r "date" ≠ CNull) (rows df)).
  destruct (cleaned_rows df) as [Hrows Hcols]. fold dated in Hrows, Hcols.
  set (dfc := if (0 <? count_true (duplicated (mkDF (columns df) dated)))%nat
              then drop_duplicates (mkDF (columns df) dated)
              else mkDF (columns df) dated) in *.
  assert (Hdfc : dfc = cleaned).
  { destruct dfc as [c r]; simpl in *. unfold cleaned. by rewrite Hrows, Hcols. }
  rewrite Hdfc. clear Hrows Hcols Hdfc dfc.
  destruct (decide ("date" ∈ columns cleaned)) as [_|[]]; [|done].
  assert (Hdates : Forall (λ v, is_date v = true) (column cleaned "date")).
  { unfold column. apply Forall_fmap. unfold cleaned; simpl.
    eapply Forall_sublist_of; [apply first_occurrences_sublist|].
    eapply Forall_sublist_of; [apply sublist_filter | exact Ht]. }
  destruct (series_extreme_dates (λ b, b) CNull _ eq_refl Hdates) as (lo & Hlo & _).
  destruct (series_extreme_dates negb CNull _ eq_refl Hdates) as (hi & Hhi & _).
  unfold series_min, series_max. rewrite Hlo. simpl. rewrite Hhi. simpl.
  assert (Hlen : (0 <? len df)%nat = true).
  { apply Nat.ltb_lt. unfold len, df_empty in *. destruct (rows df); [done|]. simpl. lia. }
  rewrite Hlen.
  eexists. split; [reflexivity|]. by repeat split.
Qed.

Lemma percent_of_rows (a b : Qc) : (a / b * qz 100 = qz 100 * a / b)%Qc.
Proof. unfold Qcdiv. ring. Qed.




(** C10, the code on a table without a date column: the validator raises
    [KeyError] at the removal of the undated rows and records nothing,
    instead of returning the rows it was given without their duplicates. *)
Theorem validate_without_date_raises (df : DataFrame) (dataset_name : string)
    (qm : Metrics) :
  df_empty df = false → "date" ∉ columns df →
  validate_data_quality df dataset_name qm = (Raise (KeyError "date"), qm).
Proof.
  intros Hne Hd. unfold validate_data_quality. rewrite Hne.
  unfold dropna. rewrite filter_cons.
  destruct (decide ("date" ∉ columns df)) as [_|Hn]; [done|]. by destruct Hn.
Qed.

Lemma validate_without_date_raises_witness :
  df_empty undated_rows = false ∧ ("date" ∉ columns undated_rows)
  ∧ validate_data_quality undated_rows "ridership" ∅
    = (Raise (KeyError "date"), ∅).
Proof.
  split; [reflexivity|]. split; [not_in_labels|].
  apply (validate_without_date_raises undated_rows "ridership" ∅);
    [reflexivity | not_in_labels].
Defined.

(** ** Joins of two lists *)

Lemma bind_nil_r {A B} (l : list A) : l ≫= (λ _, @nil B) = [].
Proof. induction l; [done|]. by rewrite bind_cons, IHl. Qed.

Lemma bind_app_Permutation {A B} (f g : A → list B) (l : list A) :
  l ≫= (λ x, f x ++ g x) ≡ₚ (l ≫= f) ++ (l ≫= g).
Proof.
  induction l as [|x l IH]; [done|]. rewrite !bind_cons, IH.
  rewrite <- !app_assoc. apply Permutation_app_head.
  rewrite !app_assoc. apply Permutation_app_tail, Permutation_app_comm.
Qed.

Lemma bind_ext_list {A B} (f g : A → list B) (l : list A) :
  (∀ x, x ∈ l → f x = g x) → l ≫= f = l ≫= g.
Proof.
  induction l as [|x l IH]; intros Hfg; [done|]. rewrite !bind_cons.
  rewrite (Hfg x) by (by left). rewrite IH; [done|].
  intros y Hy. apply Hfg. by right.
Qed.

(** The nested-loop join does not depend on which list is the outer one,
    up to the order of its results. *)
Lemma join_swap {A B C} (P : A → B → Prop) (Q : B → A → Prop)
    `{∀ a b, Decision (P a b)} `{∀ b a, Decision (Q b a)}
    (f : A → B → C) (g : B → A → C) (la : list A) (lb : list B) :
  (∀ a b, P a b ↔ Q b a) →
  (∀ a b, P a b → f a b = g b a) →
  (a ← la; b ← filter (P a) lb; [f a b])
  ≡ₚ (b ← lb; a ← filter (Q b) la; [g b a]).
Proof.
  intros HPQ Hfg. induction la as [|a la IH].
  - change ([] ≫= _) with (@nil C).
    rewrite (bind_ext_list _ (λ _, [])); [by rewrite bind_nil_r|].
    intros b _. by rewrite filter_nil.
  - rewrite bind_cons, IH.
    rewrite (bind_ext_list
               (λ b, a' ← filter (Q b) (a :: la); [g b a'])
               (λ b, (if decide (Q b a) then [g b a] else [])
                     ++ (a' ← filter (Q b) la; [g b a']))).
    2:{ intros b _. rewrite filter_cons. by destruct (decide (Q b a)). }
    rewrite bind_app_Permutation. apply Permutation_app_tail.
    clear IH. induction lb as [|b lb IH]; [done|].
    rewrite filter_cons, (bind_cons _ b lb).
    destruct (decide (P a b)) as [HP|HP], (decide (Q b a)) as [HQ|HQ];
      rewrite ?bind_cons; simpl.
    + rewrite (Hfg a b HP). by rewrite IH.
    + destruct HQ. by apply HPQ.
    + destruct HP. by apply HPQ.
    + done.
Qed.

(** ** The calendar day of a timestamp *)

Lemma days_of_floor_day t : days_of (floor_day t) = days_of t.
Proof. unfold floor_day, days_of. by rewrite Z.div_mul. Qed.

Lemma floor_day_eq t t' : floor_day t = floor_day t' ↔ days_of t = days_of t'.
Proof.
  unfold floor_day. split; [|by intros ->].
  intros Heq. apply (Z.mul_cancel_r _ _ ns_per_day); [done | exact Heq].
Qed.

Lemma day_of_floor_cell v : day_of_cell (floor_cell v) = day_of_cell v.
Proof. destruct v; simpl; try done. by rewrite days_of_floor_day. Qed.

Lemma floor_cell_match v w d :
  day_of_cell v = Some d →
  floor_cell w = floor_cell v ↔ day_of_cell w = Some d.
Proof.
  destruct v as [| | |t]; try done. simpl. intros [= <-].
  destruct w as [| | |t']; simpl; try (split; discriminate).
  split.
  - intros [= Heq]. f_equal. by apply floor_day_eq.
  - intros [= Heq]. f_equal. by apply floor_day_eq.
Qed.

(** ** The inner join of the orchestrator *)

Section Merge.
Context `{Readers}.

Lemma normalize_date_typed v :
  is_date v = true → normalize_date v = Ok (floor_cell v).
Proof. by destruct v. Qed.

Lemma normalize_assign df :
  "date" ∈ columns df → date_typed df →
  assign "date" (λ r, normalize_date (get r "date")) df = Ok (normalized df).
Proof.
  intros Hd Ht. apply assign_Ok. split.
  - unfold add_col. simpl. by destruct (decide ("date" ∈ columns df)).
  - simpl. apply Forall2_fmap_r, Forall_Forall2_diag.
    eapply Forall_impl; [exact Ht|]. intros r Hr; simpl in *.
    exists (floor_cell (get r "date")). split; [|done].
    by apply normalize_date_typed.
Qed.

Lemma merge_on_date_normalized A B :
  "date" ∈ columns A → "date" ∈ columns B → date_typed A → date_typed B →
  merge_on_date A B
  = pd_merge "date" (normalized A) (normalized B) "_ridership" "_weather".
Proof.
  intros HA HB TA TB. unfold merge_on_date.
  by rewrite (normalize_assign A HA TA), (normalize_assign B HB TB).
Qed.

End Merge.

Lemma relabel_lookup overlap suffix cols (r : Row) c :
  NoDup (suffixed overlap suffix <$> cols) → c ∈ cols →
  relabel overlap suffix cols r !! suffixed overlap suffix c = Some (get r c).
Proof.
  intros Hnd Hc. unfold relabel. apply elem_of_list_to_map_1.
  - by rewrite <- list_fmap_compose.
  - apply list_elem_of_fmap. by exists c.
Qed.

Lemma relabel_lookup_None overlap suffix cols (r : Row) k :
  k ∉ suffixed overlap suffix <$> cols →
  relabel overlap suffix cols r !! k = None.
Proof.
  intros Hk. unfold relabel. apply not_elem_of_list_to_map_1.
  by rewrite <- list_fmap_compose.
Qed.

Lemma overlap_not_key key (lcols rcols : list string) :
  key ∉ filter (λ c, c ∈ others key rcols) (others key lcols).
Proof.
  intros [_ Hk]%list_elem_of_filter. unfold others in Hk.
  by apply list_elem_of_filter in Hk as [? _].
Qed.

(** What [pd_merge] returns when it returns. *)
Lemma pd_merge_Ok key left right ls rs m :
  pd_merge key left right ls rs = Ok m →
  let overlap :=
    filter (λ c, c ∈ others key (columns right)) (others key (columns left)) in
  key ∈ columns left ∧ key ∈ columns right
  ∧ NoDup (columns m)
  ∧ columns m = (suffixed overlap ls <$> columns left)
                ++ (suffixed overlap rs <$> others key (columns right))
  ∧ rows m =
      (l ← rows left;
       r ← filter (λ r, get r key = get l key) (rows right);
       [relabel overlap ls (columns left) l
          ∪ relabel overlap rs (others key (columns right)) r]).
Proof.
  unfold pd_merge. destruct (decide _) as [[Hl Hr]|]; [|done].
  destruct (decide (NoDup _)) as [Hnd|]; [|done].
  intros [= <-]. simpl. by repeat split.
Qed.

(** The key of a joined row is the key of its left row. *)
Lemma joined_row_key key overlap ls rs lcols rcols (l r : Row) :
  key ∈ lcols → key ∉ overlap →
  NoDup (suffixed overlap ls <$> lcols) →
  get (relabel overlap ls lcols l ∪ relabel overlap rs rcols r) key = get l key.
Proof.
  intros Hk Hov Hnd. unfold get at 1.
  assert (Hs : suffixed overlap ls key = key).
  { unfold suffixed. by destruct (decide (key ∈ overlap)). }
  pose proof (relabel_lookup overlap ls lcols l key Hnd Hk) as Hl.
  rewrite Hs in Hl. by rewrite (lookup_union_Some_l _ _ _ _ Hl).
Qed.

Lemma relabel_plain suffix cols (r : Row) k :
  relabel [] suffix cols r !! k = if decide (k ∈ cols) then Some (get r k) else None.
Proof.
  unfold relabel. induction cols as [|c cols IH].
  - simpl. rewrite lookup_empty. by destruct (decide (k ∈ [])) as [?%elem_of_nil|].
  - rewrite fmap_cons. cbn [list_to_map foldr]. unfold suffixed at 1.
    rewrite decide_False by apply not_elem_of_nil. simpl.
    destruct (decide (c = k)) as [->|Hne].
    + rewrite lookup_insert_eq. rewrite decide_True; [done | by left].
    + rewrite lookup_insert_ne by done. rewrite IH.
      destruct (decide (k ∈ cols)) as [Hk|Hk].
      * rewrite decide_True; [done | by right].
      * rewrite decide_False; [done|]. intros [?|?]%elem_of_cons; by subst.
Qed.

Lemma elem_of_others key cols c : c ∈ others key cols ↔ c ≠ key ∧ c ∈ cols.
Proof. unfold others. by rewrite list_elem_of_filter. Qed.

Lemma suffixed_plain suffix (cols : list string) : suffixed [] suffix <$> cols = cols.
Proof.
  induction cols as [|c cols IH]; [done|]. rewrite fmap_cons, IH.
  unfold suffixed. by rewrite decide_False by apply not_elem_of_nil.
Qed.

(** The rows of a merge on the calendar day. *)
Lemma merge_on_date_Ok `{Readers} A B m :
  "date" ∈ columns A → "date" ∈ columns B → date_typed A → date_typed B →
  merge_on_date A B = Ok m →
  let overlap :=
    filter (λ c, c ∈ others "date" (columns B)) (others "date" (columns A)) in
  columns m = (suffixed overlap "_ridership" <$> columns A)
              ++ (suffixed overlap "_weather" <$> others "date" (columns B))
  ∧ NoDup (columns m)
  ∧ ∀ row, row ∈ rows m ↔
      ∃ a b, a ∈ rows A ∧ b ∈ rows B
        ∧ floor_cell (get b "date") = floor_cell (get a "date")
        ∧ get row "date" = floor_cell (get a "date")
        ∧ row = relabel overlap "_ridership" (columns A)
                  (<["date" := floor_cell (get a "date")]> a)
                ∪ relabel overlap "_weather" (others "date" (columns B))
                    (<["date" := floor_cell (get b "date")]> b).
Proof.
  intros HA HB TA TB Hm. rewrite merge_on_date_normalized in Hm by done.
  apply pd_merge_Ok in Hm as (_ & _ & Hnd & Hcols & Hrows). simpl in *.
  split; [done|]. split; [done|]. intros row. rewrite Hrows.
  assert (Hkey : ∀ l r : Row,
    get (relabel (filter (λ c, c ∈ others "date" (columns B)) (others "date" (columns A)))
           "_ridership" (columns A) l
         ∪ relabel (filter (λ c, c ∈ others "date" (columns B)) (others "date" (columns A)))
             "_weather" (others "date" (columns B)) r) "date" = get l "date").
  { intros l r. apply joined_row_key; [done | apply overlap_not_key |].
    rewrite Hcols in Hnd. by apply NoDup_app in Hnd as [? _]. }
  split.
  - intros (l & Hrow & Hl)%list_elem_of_bind.
    apply list_elem_of_bind in Hrow as (r & Hrow & Hr).
    apply list_elem_of_singleton in Hrow.
    apply list_elem_of_filter in Hr as [Heq Hr].
    apply list_elem_of_fmap in Hl as (a & -> & Ha).
    apply list_elem_of_fmap in Hr as (b & -> & Hb).
    rewrite !get_insert in Heq. simpl in Heq.
    subst row. exists a, b. split; [done|]. split; [done|]. split; [done|].
    split; [|done]. rewrite Hkey. by rewrite get_insert.
  - intros (a & b & Ha & Hb & Heq & _ & ->).
    apply list_elem_of_bind. eexists. split.
    2:{ apply list_elem_of_fmap. by exists a. }
    apply list_elem_of_bind. eexists. split; [apply list_elem_of_singleton; reflexivity|].
    apply list_elem_of_filter. split.
    + by rewrite !get_insert.
    + apply list_elem_of_fmap. by exists b.
Qed.

Lemma elem_of_day_set df d :
  d ∈ day_set df ↔ ∃ r, r ∈ rows df ∧ day_of_cell (get r "date") = Some d.
Proof.
  unfold day_set. rewrite elem_of_list_to_set, list_elem_of_omap.
  naive_solver.
Qed.

(** The days of the merged table are the days that both tables have. *)
Lemma merge_on_date_days `{Readers} A B m :
  "date" ∈ columns A → "date" ∈ columns B → date_typed A → date_typed B →
  merge_on_date A B = Ok m → day_set m = day_set A ∩ day_set B.
Proof.
  intros HA HB TA TB Hm.
  destruct (merge_on_date_Ok A B m HA HB TA TB Hm) as (_ & _ & Hrows).
  apply set_eq. intros d. rewrite elem_of_intersection, !elem_of_day_set. split.
  - intros (row & Hrow & Hd). apply Hrows in Hrow as (a & b & Ha & Hb & Heq & Hk & _).
    rewrite Hk, day_of_floor_cell in Hd. split; [by exists a|].
    exists b. split; [done|]. by apply (floor_cell_match (get a "date")).
  - intros [(a & Ha & Hda) (b & Hb & Hdb)].
    assert (Hnd' : NoDup (suffixed (filter (λ c, c ∈ others "date" (columns B))
                                      (others "date" (columns A)))
                            "_ridership" <$> columns A)).
    { destruct (merge_on_date_Ok A B m HA HB TA TB Hm) as (Hcols & Hnd & _).
      rewrite Hcols in Hnd. by apply NoDup_app in Hnd as [? _]. }
    pose proof (joined_row_key "date" _ "_ridership" "_weather" (columns A)
                  (others "date" (columns B))
                  (<["date" := floor_cell (get a "date")]> a)
                  (<["date" := floor_cell (get b "date")]> b)
                  HA (overlap_not_key _ _ _) Hnd') as Hkey.
    rewrite get_insert in Hkey. simpl in Hkey.
    eexists. split.
    + apply Hrows. exists a, b. split; [done|]. split; [done|].
      split; [by apply (floor_cell_match (get a "date") _ d)|].
      split; [exact Hkey | reflexivity].
    + rewrite Hkey. by rewrite day_of_floor_cell.
Qed.

(** ** Tables that share no label but the key *)

Lemma overlap_nil key (lcols rcols : list string) :
  (∀ c, c ∈ lcols → c ∈ rcols → c = key) →
  filter (λ c, c ∈ others key rcols) (others key lcols) = [].
Proof.
  intros Hshare. induction lcols as [|c lcols IH]; [done|].
  unfold others in *. rewrite filter_cons.
  assert (IH' := IH (λ c' Hc', Hshare c' (proj2 (elem_of_cons _ _ _) (or_intror Hc')))).
  destruct (decide (c ≠ key)) as [Hne|]; [|done].
  rewrite filter_cons, IH'. rewrite decide_False; [done|].
  intros [_ Hc]%list_elem_of_filter. apply Hne, Hshare; [by left | done].
Qed.

Lemma pd_merge_plain key left right ls rs :
  key ∈ columns left → key ∈ columns right →
  NoDup (columns left) → NoDup (columns right) →
  (∀ c, c ∈ columns left → c ∈ columns right → c = key) →
  pd_merge key left right ls rs
  = Ok (mkDF (columns left ++ others key (columns right))
          (l ← rows left;
           r ← filter (λ r, get r key = get l key) (rows right);
           [relabel [] ls (columns left) l
              ∪ relabel [] rs (others key (columns right)) r])).
Proof.
  intros Hl Hr Hndl Hndr Hshare. unfold pd_merge.
  rewrite decide_True by done. rewrite (overlap_nil key _ _ Hshare).
  rewrite !suffixed_plain. rewrite decide_True; [done|].
  apply NoDup_app. split; [done|]. split.
  - intros c Hc [Hne Hc']%elem_of_others. by apply Hne, Hshare.
  - by apply NoDup_filter.
Qed.

Lemma plain_columns_swap key (lcols rcols : list string) :
  key ∈ lcols → key ∈ rcols → NoDup lcols → NoDup rcols →
  (∀ c, c ∈ lcols → c ∈ rcols → c = key) →
  lcols ++ others key rcols ≡ₚ rcols ++ others key lcols.
Proof.
  intros Hl Hr Hndl Hndr Hshare.
  assert (Hnd : ∀ l r : list string, NoDup l → NoDup r →
            (∀ c, c ∈ l → c ∈ r → c = key) → NoDup (l ++ others key r)).
  { intros l r Hl' Hr' Hs. apply NoDup_app. split; [done|]. split.
    - intros c Hc [Hne Hc']%elem_of_others. by apply Hne, Hs.
    - by apply NoDup_filter. }
  apply NoDup_Permutation.
  - by apply Hnd.
  - apply Hnd; [done..|]. intros c ? ?. by apply Hshare.
  - intros c. rewrite !elem_of_app, !elem_of_others.
    destruct (decide (c = key)) as [->|Hne]; [tauto|]. tauto.
Qed.

(** A joined row does not depend on the side that each table was on. *)
Lemma plain_row_swap key ls rs ls' rs' (lcols rcols : list string) (l r : Row) :
  key ∈ lcols → key ∈ rcols →
  (∀ c, c ∈ lcols → c ∈ rcols → c = key) →
  get r key = get l key →
  relabel [] ls lcols l ∪ relabel [] rs (others key rcols) r
  = relabel [] ls' rcols r ∪ relabel [] rs' (others key lcols) l.
Proof.
  intros Hl Hr Hshare Hkey. apply map_eq. intros k.
  rewrite !lookup_union, !relabel_plain.
  destruct (decide (k = key)) as [->|Hne].
  - rewrite (decide_True (P := key ∈ lcols)), (decide_True (P := key ∈ rcols)) by done.
    rewrite !(decide_False (P := key ∈ others key _))
      by (intros [? _]%elem_of_others; done).
    simpl. by rewrite Hkey.
  - destruct (decide (k ∈ lcols)) as [Hkl|Hkl], (decide (k ∈ rcols)) as [Hkr|Hkr].
    + destruct Hne. by apply Hshare.
    + rewrite (decide_False (P := k ∈ others key rcols))
        by (intros [_ ?]%elem_of_others; done).
      rewrite (decide_True (P := k ∈ others key lcols))
        by (by apply elem_of_others).
      done.
    + rewrite (decide_True (P := k ∈ others key rcols))
        by (by apply elem_of_others).
      rewrite (decide_False (P := k ∈ others key lcols))
        by (intros [_ ?]%elem_of_others; done).
      done.
    + rewrite (decide_False (P := k ∈ others key rcols))
        by (intros [_ ?]%elem_of_others; done).
      rewrite (decide_False (P := k ∈ others key lcols))
        by (intros [_ ?]%elem_of_others; done).
      done.
Qed.

Lemma pd_merge_swap key left right ls rs ls' rs' :
  key ∈ columns left → key ∈ columns right →
  NoDup (columns left) → NoDup (columns right) →
  (∀ c, c ∈ columns left → c ∈ columns right → c = key) →
  ∃ m m', pd_merge key left right ls rs = Ok m
    ∧ pd_merge key right left ls' rs' = Ok m'
    ∧ columns m ≡ₚ columns m' ∧ rows m ≡ₚ rows m'.
Proof.
  intros Hl Hr Hndl Hndr Hshare.
  rewrite (pd_merge_plain key left right) by done.
  rewrite (pd_merge_plain key right left) by (try done; intros c ? ?; by apply Hshare).
  eexists _, _. split; [done|]. split; [done|]. simpl. split.
  - by apply plain_columns_swap.
  - apply (join_swap (λ l r : Row, get r key = get l key)
                     (λ r l : Row, get l key = get r key)).
    + intros l r. split; intros; done.
    + intros l r Heq. by apply plain_row_swap.
Qed.

Lemma merge_on_date_swap `{Readers} A B :
  "date" ∈ columns A → "date" ∈ columns B → date_typed A → date_typed B →
  NoDup (columns A) → NoDup (columns B) →
  (∀ c, c ∈ columns A → c ∈ columns B → c = "date") →
  ∃ m m', merge_on_date A B = Ok m ∧ merge_on_date B A = Ok m'
    ∧ columns m ≡ₚ columns m' ∧ rows m ≡ₚ rows m'.
Proof.
  intros HA HB TA TB NA NB Hshare.
  rewrite (merge_on_date_normalized A B), (merge_on_date_normalized B A) by done.
  by apply pd_merge_swap.
Qed.

Section MergeClaims.
Context `{Readers}.

(** C5, as amended.  The join of [transform_and_merge] takes both date
    columns to the calendar day and joins on it: every merged row carries
    the midnight of a day on which a row of each table falls, and the set
    of days of the merged table is the intersection of the sets of days of
    the two tables.  When the two tables share no column label other than
    date (and repeat none of their own), the join returns with either
    table on the left, and the two results have the same columns and the
    same rows up to their order. *)
Theorem merge_on_date_inner_join (A B : DataFrame) :
  "date" ∈ columns A → "date" ∈ columns B → date_typed A → date_typed B →
  (∀ m, merge_on_date A B = Ok m →
     day_set m = day_set A ∩ day_set B
     ∧ ∀ row, row ∈ rows m →
         ∃ a b, a ∈ rows A ∧ b ∈ rows B
           ∧ day_of_cell (get a "date") = day_of_cell (get b "date")
           ∧ get row "date" = floor_cell (get a "date"))
  ∧ (NoDup (columns A) → NoDup (columns B) →
     (∀ c, c ∈ columns A → c ∈ columns B → c = "date") →
     ∃ m m', merge_on_date A B = Ok m ∧ merge_on_date B A = Ok m'
       ∧ columns m ≡ₚ columns m' ∧ rows m ≡ₚ rows m').
Proof.
  intros HA HB TA TB. split.
  - intros m Hm. split; [by apply merge_on_date_days|].
    intros row Hrow.
    destruct (merge_on_date_Ok A B m HA HB TA TB Hm) as (_ & _ & Hrows).
    apply Hrows in Hrow as (a & b & Ha & Hb & Heq & Hk & _).
    exists a, b. split; [done|]. split; [done|]. split; [|done].
    by rewrite <- (day_of_floor_cell (get a "date")),
               <- (day_of_floor_cell (get b "date")), Heq.
  - intros NA NB Hshare. by apply merge_on_date_swap.
Qed.

(** Ridership on the days 1, 2, 3 and weather on the days 2, 3, 4 merge to
    the days 2 and 3. *)
Lemma merged_days_2_3 :
  ∃ m qm, transform_and_merge ridership_123 weather_234 ∅ = (Ok m, qm)
    ∧ day_set ridership_123 = {[1; 2; 3]}
    ∧ day_set weather_234 = {[2; 3; 4]}
    ∧ day_set m = {[2; 3]}.
Proof.
  eexists _, _. split; [vm_compute; reflexivity|].
  repeat split; vm_compute; reflexivity.
Qed.

End MergeClaims.

Lemma merge_on_date_inner_join_witness :
  "date" ∈ columns ridership_123 ∧ "date" ∈ columns weather_234
  ∧ date_typed ridership_123 ∧ date_typed weather_234
  ∧ (∀ m, @merge_on_date no_readers ridership_123 weather_234 = Ok m →
       day_set m = day_set ridership_123 ∩ day_set weather_234
       ∧ ∀ row, row ∈ rows m →
           ∃ a b, a ∈ rows ridership_123 ∧ b ∈ rows weather_234
             ∧ day_of_cell (get a "date") = day_of_cell (get b "date")
             ∧ get row "date" = floor_cell (get a "date"))
  ∧ (NoDup (columns ridership_123) → NoDup (columns weather_234) →
     (∀ c, c ∈ columns ridership_123 → c ∈ columns weather_234 → c = "date") →
     ∃ m m', @merge_on_date no_readers ridership_123 weather_234 = Ok m
       ∧ @merge_on_date no_readers weather_234 ridership_123 = Ok m'
       ∧ columns m ≡ₚ columns m' ∧ rows m ≡ₚ rows m').
Proof.
  split; [closed_holds|]. split; [closed_holds|].
  split; [closed_dates|]. split; [closed_dates|].
  apply (@merge_on_date_inner_join no_readers ridership_123 weather_234);
    [closed_holds | closed_holds | closed_dates | closed_dates].
Defined.

(** C5 as stated fails: when both tables carry a latitude, the merged row
    holds under latitude_ridership the latitude of whichever table was
    given first, so the two orders give different rows. *)
Lemma merge_not_commutative :
  ∃ m m' qm qm' r r',
    @transform_and_merge no_readers ridership_with_latitude weather_with_latitude ∅
    = (Ok m, qm)
    ∧ @transform_and_merge no_readers weather_with_latitude ridership_with_latitude ∅
      = (Ok m', qm')
    ∧ rows m = [r] ∧ rows m' = [r']
    ∧ get r "latitude_ridership" = CNum (qd 4075 100)
    ∧ get r "latitude_weather" = CNum (qd 4071 100)
    ∧ get r' "latitude_ridership" = CNum (qd 4071 100)
    ∧ get r' "latitude_weather" = CNum (qd 4075 100)
    ∧ ¬ rows m ≡ₚ rows m'.
Proof.
  eexists _, _, _, _, _, _. split; [vm_compute; reflexivity|].
  split; [vm_compute; reflexivity|].
  split; [reflexivity|]. split; [reflexivity|].
  split; [qc_cell|]. split; [qc_cell|]. split; [qc_cell|]. split; [qc_cell|].
  intros Hp. apply Permutation_singleton_l in Hp.
  apply (f_equal (λ l : list Row,
            match get (default ∅ (head l)) "latitude_ridership" with
            | CNum q => Some (this q)
            | _ => None
            end)) in Hp.
  vm_compute in Hp. discriminate Hp.
Qed.

(** ** Sorting by a column *)

Lemma insert_by_Permutation c x l : insert_by c x l ≡ₚ x :: l.
Proof.
  induction l as [|y l IH]; [done|]. simpl.
  destruct (key_leb _ _); [done|]. rewrite IH. apply Permutation_swap.
Qed.

Lemma sorted_rows_Permutation c l : foldr (insert_by c) [] l ≡ₚ l.
Proof.
  induction l as [|x l IH]; [done|]. simpl.
  by rewrite insert_by_Permutation, IH.
Qed.

Lemma key_leb_total a b :
  is_date a = true → is_date b = true →
  key_leb a b = false → key_leb b a = true.
Proof.
  destruct a, b; simpl; try done. intros _ _ Hab.
  apply Z.leb_le. apply Z.leb_gt in Hab. lia.
Qed.

Lemma key_leb_trans a b c :
  is_date a = true → is_date b = true → is_date c = true →
  key_leb a b = true → key_leb b c = true → key_leb a c = true.
Proof.
  destruct a, b, c; simpl; try done. intros _ _ _ Hab Hbc.
  apply Z.leb_le. apply Z.leb_le in Hab, Hbc. lia.
Qed.

Lemma insert_by_sorted x l :
  is_date (get x "date") = true →
  Forall (λ r, is_date (get r "date") = true) l →
  StronglySorted (λ r1 r2, key_leb (get r1 "date") (get r2 "date") = true) l →
  StronglySorted (λ r1 r2, key_leb (get r1 "date") (get r2 "date") = true)
    (insert_by "date" x l).
Proof.
  intros Hx Hl Hs. induction Hs as [|y l Hs IH Hy]; simpl.
  - repeat constructor.
  - apply Forall_cons in Hl as [Hdy Hl].
    destruct (key_leb (get x "date") (get y "date")) eqn:Hxy.
    + constructor; [by constructor|]. constructor; [done|].
      rewrite Forall_forall in Hy, Hl. apply Forall_forall. intros z Hz.
      eapply key_leb_trans; [| | | exact Hxy | by apply Hy]; auto.
    + constructor; [by apply IH|].
      rewrite insert_by_Permutation. constructor; [|done].
      by apply key_leb_total.
Qed.

Lemma sorted_rows_sorted l :
  Forall (λ r, is_date (get r "date") = true) l →
  StronglySorted (λ r1 r2, key_leb (get r1 "date") (get r2 "date") = true)
    (foldr (insert_by "date") [] l).
Proof.
  induction 1 as [|x l Hx Hl IH]; simpl; [constructor|].
  apply insert_by_sorted; [done| |done].
  by rewrite sorted_rows_Permutation.
Qed.

Lemma sort_values_date df :
  "date" ∈ columns df → date_typed df →
  sort_values "date" df
  = Ok (mkDF (columns df) (foldr (insert_by "date") [] (rows df))).
Proof.
  intros Hd Ht. unfold sort_values. rewrite decide_True by done.
  rewrite decide_True; [done|]. unfold column, date_typed in *.
  apply Forall_fmap, Forall_forall. intros r1 Hr1.
  apply Forall_fmap, Forall_forall. intros r2 Hr2. simpl.
  rewrite Forall_forall in Ht. pose proof (Ht r1 Hr1). pose proof (Ht r2 Hr2).
  by destruct (get r1 "date"), (get r2 "date").
Qed.

(** ** Rolling means *)

Lemma rolling_mean_Ok w mp col :
  Forall (λ v, numeric v = true) col →
  rolling_mean w mp col = Ok (imap (λ i _, mean_of mp (window w i col)) col).
Proof. intros Hc. unfold rolling_mean. by rewrite decide_True. Qed.

Lemma column_assign_values c k vals df :
  k ≠ c → length vals = length (rows df) →
  column (assign_values c vals df) k = column df k.
Proof.
  intros Hk. unfold column, assign_values. simpl.
  generalize (rows df). intros l. revert vals.
  induction l as [|r l IH]; intros [|v vals] Hlen; simpl in *; try done.
  rewrite get_insert, decide_False by done. f_equal. apply IH. lia.
Qed.

Lemma lookup_assign_values c vals df i r' :
  length vals = length (rows df) →
  rows (assign_values c vals df) !! i = Some r' ↔
  ∃ r v, rows df !! i = Some r ∧ vals !! i = Some v ∧ r' = <[c := v]> r.
Proof.
  intros _. unfold assign_values. simpl. rewrite lookup_zip_with_Some.
  split.
  - intros (r & v & -> & Hr & Hv). by exists r, v.
  - intros (r & v & Hr & Hv & ->). by exists r, v.
Qed.

Lemma lookup_rolling w mp col i :
  (i < length col)%nat →
  imap (λ i _, mean_of mp (window w i col)) col !! i
  = Some (mean_of mp (window w i col)).
Proof.
  intros Hi. rewrite list_lookup_imap.
  destruct (lookup_lt_is_Some_2 col i Hi) as [v ->]. done.
Qed.

(** The mean of a window of numbers. *)
Lemma mean_of_numbers (xs : list Qc) :
  xs ≠ [] → mean_of 1 (CNum <$> xs) = CNum (sum_Qc xs / qn (length xs))%Qc.
Proof.
  intros Hxs. unfold mean_of.
  assert (Hn : numbers (CNum <$> xs) = xs).
  { unfold numbers. induction xs as [|x xs IH]; [done|]. simpl.
    destruct xs; [done|]. f_equal. by apply IH. }
  rewrite Hn. rewrite bool_decide_eq_false_2 by done. simpl.
  destruct xs; [done|]. done.
Qed.

Lemma window_first {A} w (x : A) l : (0 < w)%nat → window w 0 (x :: l) = [x].
Proof.
  intros Hw. unfold window. replace (1 - w)%nat with 0%nat by lia.
  simpl. by rewrite take_0.
Qed.

(** What [add_rolling_averages] returns. *)
Lemma add_rolling_averages_Ok df :
  "date" ∈ columns df → date_typed df →
  Forall (λ v, numeric v = true) (column df "ridership") →
  let sorted := foldr (insert_by "date") [] (rows df) in
  let ridership := (λ r, get r "ridership") <$> sorted in
  add_rolling_averages df
  = Ok (assign_values "ridership_30day_avg"
          (imap (λ i _, mean_of 1 (window 30 i ridership)) ridership)
          (assign_values "ridership_7day_avg"
             (imap (λ i _, mean_of 1 (window 7 i ridership)) ridership)
             (mkDF (columns df) sorted))).
Proof.
  intros Hd Ht Hn. simpl. unfold add_rolling_averages.
  rewrite sort_values_date by done. simpl.
  assert (Hn' : Forall (λ v, numeric v = true)
                  ((λ r, get r "ridership") <$> foldr (insert_by "date") [] (rows df))).
  { unfold column in Hn. by rewrite sorted_rows_Permutation. }
  change (column (mkDF (columns df) (foldr (insert_by "date") [] (rows df))) "ridership")
    with ((λ r, get r "ridership") <$> foldr (insert_by "date") [] (rows df)).
  rewrite rolling_mean_Ok by done. simpl.
  rewrite column_assign_values; [|done|].
  2:{ simpl. by rewrite length_imap, length_fmap. }
  change (column (mkDF (columns df) (foldr (insert_by "date") [] (rows df))) "ridership")
    with ((λ r, get r "ridership") <$> foldr (insert_by "date") [] (rows df)).
  by rewrite rolling_mean_Ok.
Qed.

Lemma key_leb_date_le a b :
  is_date a = true → is_date b = true → key_leb a b = true → date_le a b.
Proof. destruct a, b; simpl; try done. intros _ _. apply Z.leb_le. Qed.

Lemma sorted_rows_ascending l :
  Forall (λ r, is_date (get r "date") = true) l →
  ascending_by_date (foldr (insert_by "date") [] l).
Proof.
  intros Hl. pose proof (sorted_rows_sorted l Hl) as Hs.
  assert (Hd : Forall (λ r, is_date (get r "date") = true)
                 (foldr (insert_by "date") [] l))
    by (by rewrite sorted_rows_Permutation).
  unfold ascending_by_date. induction Hs as [|x k Hs IH Hx]; [constructor|].
  apply Forall_cons in Hd as [Hdx Hd]. constructor; [by apply IH|].
  rewrite Forall_forall in Hx, Hd. apply Forall_forall. intros y Hy.
  apply key_leb_date_le; auto.
Qed.

Lemma qz_0 : qz 0 = 0%Qc.
Proof. by apply Qc_is_canon. Qed.

Lemma qz_1 : qz 1 = 1%Qc.
Proof. by apply Qc_is_canon. Qed.

(** C6.  On a merged table with a ridership column of numbers and a date
    column of timestamps, the rolling step returns the rows sorted
    ascending by date with two columns added and nothing else changed:
    ridership_7day_avg at row i is the mean of the ridership numbers of the
    rows i-6 .. i of the sorted table (fewer at the start, one number being
    enough), ridership_30day_avg the same over the rows i-29 .. i.  At the
    first row the 7-day average is the ridership of that row; at the 10th
    row it is the mean of the ridership values of the rows 4 to 10. *)
Theorem rolling_averages_trailing_mean (df : DataFrame) :
  "ridership" ∈ columns df → "date" ∈ columns df → date_typed df →
  Forall (λ v, numeric v = true) (column df "ridership") →
  ∃ df' sorted,
    when_col "ridership" add_rolling_averages df = Ok df'
    ∧ sorted ≡ₚ rows df
    ∧ ascending_by_date sorted
    ∧ length (rows df') = length sorted
    ∧ ∀ (i : nat) r', rows df' !! i = Some r' →
        let ridership := (λ r, get r "ridership") <$> sorted in
        ∃ r, sorted !! i = Some r
          ∧ (∀ k, k ≠ "ridership_7day_avg" → k ≠ "ridership_30day_avg" →
                  r' !! k = r !! k)
          ∧ get r' "ridership_7day_avg"
            = mean_of 1 (drop (S i - 7) (take (S i) ridership))
          ∧ get r' "ridership_30day_avg"
            = mean_of 1 (drop (S i - 30) (take (S i) ridership))
          ∧ (i = 0%nat → ∀ x, get r "ridership" = CNum x →
               get r' "ridership_7day_avg" = CNum x)
          ∧ (i = 9%nat → ∀ x4 x5 x6 x7 x8 x9 x10,
               drop 3 (take 10 ridership)
               = CNum <$> [x4; x5; x6; x7; x8; x9; x10] →
               get r' "ridership_7day_avg"
               = CNum ((x4 + x5 + x6 + x7 + x8 + x9 + x10) / qz 7)%Qc).
Proof.
  intros Hr Hd Ht Hn. unfold when_col. rewrite decide_True by done.
  rewrite add_rolling_averages_Ok by done.
  set (sorted := foldr (insert_by "date") [] (rows df)).
  set (ridership := (λ r, get r "ridership") <$> sorted).
  eexists _, sorted. split; [reflexivity|].
  split; [apply sorted_rows_Permutation|].
  split; [by apply sorted_rows_ascending|].
  assert (Hlen : length ridership = length sorted)
    by (unfold ridership; by rewrite length_fmap).
  split.
  { simpl. rewrite !length_zip_with, !length_imap. lia. }
  intros i r' Hr'. cbv zeta.
  apply lookup_assign_values in Hr' as (r1 & v30 & Hr1 & Hv30 & ->).
  2:{ simpl. rewrite length_zip_with, !length_imap. lia. }
  apply lookup_assign_values in Hr1 as (r & v7 & Hri & Hv7 & ->).
  2:{ simpl. by rewrite length_imap. }
  simpl in Hri.
  assert (Hi : (i < length ridership)%nat).
  { rewrite Hlen. by eapply lookup_lt_Some. }
  rewrite lookup_rolling in Hv7, Hv30 by done.
  injection Hv7 as <-. injection Hv30 as <-.
  assert (H7 : get (<["ridership_30day_avg" := mean_of 1 (window 30 i ridership)]>
                      (<["ridership_7day_avg" := mean_of 1 (window 7 i ridership)]> r))
                 "ridership_7day_avg" = mean_of 1 (window 7 i ridership)).
  { rewrite get_insert, decide_False by done. by rewrite get_insert, decide_True. }
  exists r. split; [done|]. split.
  { intros k Hk7 Hk30. by rewrite !lookup_insert_ne. }
  split; [exact H7|]. split.
  { by rewrite get_insert, decide_True. }
  split.
  - intros -> x Hx. rewrite H7. unfold ridership.
    destruct sorted as [|r0 rest]; [done|]. simpl in Hri. injection Hri as ->.
    rewrite fmap_cons, window_first by lia. rewrite Hx.
    change [CNum x] with (CNum <$> [x]). rewrite mean_of_numbers by done.
    apply (f_equal CNum). unfold sum_Qc. simpl.
    change (qn 1) with (qz 1). rewrite qz_0, qz_1. field. discriminate.
  - intros -> x4 x5 x6 x7 x8 x9 x10 Hw. fold ridership in Hw. rewrite H7.
    change (window 7 9 ridership) with (drop 3 (take 10 ridership)).
    rewrite Hw, mean_of_numbers by done.
    apply (f_equal CNum). unfold sum_Qc. simpl.
    change (qn 7) with (qz 7). rewrite qz_0. f_equal. ring.
Qed.

Lemma rolling_averages_trailing_mean_witness :
  "ridership" ∈ columns ten_days ∧ "date" ∈ columns ten_days
  ∧ date_typed ten_days
  ∧ Forall (λ v, numeric v = true) (column ten_days "ridership")
  ∧ ∃ df' sorted,
      when_col "ridership" add_rolling_averages ten_days = Ok df'
      ∧ sorted ≡ₚ rows ten_days
      ∧ ascending_by_date sorted
      ∧ length (rows df') = length sorted
      ∧ ∀ (i : nat) r', rows df' !! i = Some r' →
          let ridership := (λ r, get r "ridership") <$> sorted in
          ∃ r, sorted !! i = Some r
            ∧ (∀ k, k ≠ "ridership_7day_avg" → k ≠ "ridership_30day_avg" →
                    r' !! k = r !! k)
            ∧ get r' "ridership_7day_avg"
              = mean_of 1 (drop (S i - 7) (take (S i) ridership))
            ∧ get r' "ridership_30day_avg"
              = mean_of 1 (drop (S i - 30) (take (S i) ridership))
            ∧ (i = 0%nat → ∀ x, get r "ridership" = CNum x →
                 get r' "ridership_7day_avg" = CNum x)
            ∧ (i = 9%nat → ∀ x4 x5 x6 x7 x8 x9 x10,
                 drop 3 (take 10 ridership)
                 = CNum <$> [x4; x5; x6; x7; x8; x9; x10] →
                 get r' "ridership_7day_avg"
                 = CNum ((x4 + x5 + x6 + x7 + x8 + x9 + x10) / qz 7)%Qc).
Proof.
  split; [closed_holds|]. split; [closed_holds|]. split; [closed_dates|].
  split; [closed_holds|].
  apply (rolling_averages_trailing_mean ten_days);
    [closed_holds | closed_holds | closed_dates | closed_holds].
Defined.

(** ** The resilient fetcher *)

Lemma qz_nonneg z : 0 <= z → (qz 0 <= qz z)%Qc.
Proof.
  intros Hz. unfold Qcle, qz. simpl. rewrite !Qred_correct.
  unfold Qle. simpl. lia.
Qed.

Lemma backoff_nonneg (d : Qc) z :
  (qz 0 <= d)%Qc → 0 <= z → Qc_ltb (d * qz z) (qz 0) = false.
Proof.
  intros Hd Hz. unfold Qc_ltb. apply bool_decide_eq_false_2, Qcle_not_lt.
  rewrite qz_0 in *. replace 0%Qc with (0 * qz z)%Qc by ring.
  apply Qcmult_le_compat_r; [done|]. rewrite <- qz_0. by apply qz_nonneg.
Qed.

Section Fetcher.
Context {Net A : Type} (func : thunk Net A).

(** The loop, over the attempts that fail and are followed by another. *)
Lemma retry_loop_fails max_retries delay es : ∀ (s len : nat) n n1 tr c,
  (qz 0 <= delay)%Qc →
  fails_with func es n n1 →
  Z.of_nat s + Z.of_nat (length es) <= max_retries - 1 →
  (length es ≤ len)%nat →
  retry_loop func max_retries delay (Z.of_nat <$> seq s len) (mkWorld n tr c)
  = retry_loop func max_retries delay
      (Z.of_nat <$> seq (s + length es) (len - length es))
      (mkWorld n1 (tr ++ failed_attempts delay (Z.of_nat s) es) c).
Proof.
  induction es as [|e es IH]; intros s len n n1 tr c Hd Hf Hs Hlen.
  - simpl in *. subst. by rewrite Nat.add_0_r, Nat.sub_0_r, app_nil_r.
  - destruct Hf as (n2 & Hcall & Hf). simpl in Hs, Hlen.
    destruct len as [|len]; [lia|]. simpl seq. rewrite fmap_cons.
    cbn [retry_loop]. unfold try_except at 1.
    unfold mbind at 1, M_bind at 1, invoke at 1. simpl net. rewrite Hcall.
    simpl trace. simpl cache_file.
    unfold mbind at 1, M_bind at 1, log_error at 1, emit at 1, modify at 1.
    rewrite (proj2 (Z.ltb_lt _ _)) by lia.
    unfold mbind at 1, M_bind at 1, sleep at 1.
    rewrite backoff_nonneg by (done || lia).
    unfold emit at 1, modify at 1. simpl.
    rewrite (IH (S s) len n2 n1) by (done || lia).
    replace (S s + length es)%nat with (s + S (length es))%nat by lia.
    replace (Z.of_nat (S s)) with (Z.of_nat s + 1) by lia.
    by rewrite <- !app_assoc.
Qed.

End Fetcher.

Section FetcherClaims.
Context {Net A : Type} (func : thunk Net A).

(** C8.  With the ceiling [max_retries or 3] and the base delay
    [delay or 2] (not negative), when the thunk fails on its first calls
    with the exceptions [es]:
    - if fewer than the ceiling have failed and the next call returns a
      value, [fetch_with_retry] returns that value; the thunk has been
      called once per failure and once more, every failed attempt of
      index i was logged and followed by a pause of delay * (i + 1), and
      nothing happens after the successful call;
    - if the call after them is the last one the ceiling allows and fails
      too, its exception leaves [fetch_with_retry], after as many calls as
      the ceiling and no pause behind the last one. *)
Theorem fetch_with_retry_backoff (max_retries : option Z) (delay : option Qc)
    (w : World Net) (es : list exn) (n1 : Net) :
  let ceiling := or_Z max_retries 3 in
  let base := or_Qc delay (qz 2) in
  (qz 0 <= base)%Qc →
  fails_with func es (net w) n1 →
  (∀ v n2, Z.of_nat (length es) < ceiling → func n1 = (Ok v, n2) →
     fetch_with_retry func max_retries delay w
     = (Ok (Some v),
        mkWorld n2 (trace w ++ failed_attempts base 0 es ++ [Invoked])
                (cache_file w)))
  ∧ (∀ e n2, Z.of_nat (length es) + 1 = ceiling → func n1 = (Raise e, n2) →
     fetch_with_retry func max_retries delay w
     = (Raise e,
        mkWorld n2
          (trace w ++ failed_attempts base 0 es
             ++ [Invoked; Logged (AttemptFailed ceiling e)])
          (cache_file w))).
Proof.
  intros ceiling base Hd Hf. unfold fetch_with_retry, py_range.
  fold ceiling. change (or_Qc delay self_retry_delay) with base.
  change (or_Z max_retries self_max_retries) with ceiling.
  destruct w as [n tr c]. simpl in *. split.
  - intros v n2 Hk Hcall.
    rewrite (retry_loop_fails func ceiling base es 0 (Z.to_nat ceiling) n n1)
      by (done || lia).
    destruct (Z.to_nat ceiling - length es)%nat as [|len] eqn:Hlen; [lia|].
    simpl seq. rewrite fmap_cons. cbn [retry_loop]. unfold try_except.
    unfold mbind, M_bind, invoke. simpl. rewrite Hcall. simpl.
    by rewrite <- app_assoc.
  - intros e n2 Hk Hcall.
    rewrite (retry_loop_fails func ceiling base es 0 (Z.to_nat ceiling) n n1)
      by (done || lia).
    destruct (Z.to_nat ceiling - length es)%nat as [|len] eqn:Hlen; [lia|].
    simpl seq. rewrite fmap_cons. cbn [retry_loop]. unfold try_except.
    unfold mbind at 1, M_bind at 1, invoke at 1. simpl net. rewrite Hcall.
    simpl trace. simpl cache_file.
    unfold mbind at 1, M_bind at 1, log_error at 1, emit at 1, modify at 1.
    rewrite (proj2 (Z.ltb_ge _ _)) by lia.
    unfold raise. simpl.
    replace (Z.of_nat (length es) + 1) with ceiling by lia.
    by rewrite <- !app_assoc.
Qed.

End FetcherClaims.

Lemma fetch_with_retry_backoff_witness :
  (qz 0 <= or_Qc None (qz 2))%Qc
  ∧ fails_with (fails_first 2)
      [RequestException "timeout"; RequestException "timeout"] 0%nat 2%nat
  ∧ (∀ v n2, Z.of_nat 2 < or_Z None 3 → fails_first 2 2%nat = (Ok v, n2) →
       fetch_with_retry (fails_first 2) None None (mkWorld 0%nat [] None)
       = (Ok (Some v),
          mkWorld n2
            ([] ++ failed_attempts (or_Qc None (qz 2)) 0
                     [RequestException "timeout"; RequestException "timeout"]
                ++ [Invoked])
            None))
  ∧ (∀ e n2, Z.of_nat 2 + 1 = or_Z None 3 →
       fails_first 2 2%nat = (Raise e, n2) →
       fetch_with_retry (fails_first 2) None None (mkWorld 0%nat [] None)
       = (Raise e,
          mkWorld n2
            ([] ++ failed_attempts (or_Qc None (qz 2)) 0
                     [RequestException "timeout"; RequestException "timeout"]
                ++ [Invoked; Logged (AttemptFailed (or_Z None 3) e)])
            None)).
Proof.
  assert (Hd : (qz 0 <= or_Qc None (qz 2))%Qc) by (by apply qz_nonneg).
  assert (Hf : fails_with (fails_first 2)
                 [RequestException "timeout"; RequestException "timeout"]
                 0%nat 2%nat).
  { simpl. exists 1%nat. split; [reflexivity|]. exists 2%nat. by split. }
  split; [exact Hd|]. split; [exact Hf|].
  exact (fetch_with_retry_backoff (fails_first 2) None None
           (mkWorld 0%nat [] None)
           [RequestException "timeout"; RequestException "timeout"] 2%nat
           Hd Hf).
Defined.

(** ** The ridership extractor *)

Section Extractor.
Context `{Readers} {Net : Type} `{Services Net}.

(** A value that the fetcher returns is a value that the thunk returned. *)
Lemma retry_loop_value {A} (func : thunk Net A) max_retries delay attempts :
  ∀ w b w', retry_loop func max_retries delay attempts w = (Ok (Some b), w') →
  ∃ n n', func n = (Ok b, n').
Proof.
  induction attempts as [|a rest IH]; intros w b w'; [done|].
  cbn [retry_loop]. unfold try_except.
  unfold mbind at 1, M_bind at 1, invoke at 1.
  destruct (func (net w)) as [[v|e] n'] eqn:Hcall.
  - intros [= <- _]. by exists (net w), n'.
  - unfold mbind at 1, M_bind at 1, log_error at 1, emit at 1, modify at 1.
    destruct (a <? max_retries - 1); [|done].
    unfold mbind at 1, M_bind at 1, sleep at 1.
    destruct (Qc_ltb _ _); [done|]. unfold emit, modify. apply IH.
Qed.

Lemma half_second : Qc_ltb (qd 5 10) (qz 0) = false.
Proof. apply (bool_decide_eq_false_2 _). by intros ?. Qed.

(** One window of the loop whose fetch raises. *)
Lemma fetch_weeks_failed start_dt end_dt records_per_day max_records
    day_offset rest all_data w e w1 :
  fetch_with_retry
    (ridership_fetch records_per_day (start_dt + day_offset)
       (Z.min (start_dt + day_offset + 6) end_dt)) None None w
  = (Raise e, w1) →
  fetch_weeks start_dt end_dt records_per_day max_records
    (day_offset :: rest) all_data w
  = fetch_weeks start_dt end_dt records_per_day max_records rest all_data
      (mkWorld (net w1)
         (trace w1 ++ [Logged (WeekFailed (start_dt + day_offset) e)])
         (cache_file w1)).
Proof.
  intros Hf. cbn [fetch_weeks].
  unfold mbind at 1, M_bind at 1, try_except at 1.
  unfold mbind at 1, M_bind at 1. by rewrite Hf.
Qed.

(** The loop over the windows returns, whatever the services do. *)
Lemma fetch_weeks_returns start_dt end_dt records_per_day max_records offsets :
  ∀ all_data w, ∃ data w',
    fetch_weeks start_dt end_dt records_per_day max_records offsets all_data w
    = (Ok data, w').
Proof.
  induction offsets as [|off rest IH]; intros all_data w; [by eexists _, _|].
  cbn [fetch_weeks].
  unfold mbind at 1, M_bind at 1, try_except at 1.
  unfold mbind at 1, M_bind at 1.
  destruct (fetch_with_retry _ None None w) as [[batch|e] w1].
  - destruct (max_records <=? _); [by eexists _, _|].
    unfold mbind at 1, M_bind at 1, sleep at 1. rewrite half_second.
    unfold emit, modify. apply IH.
  - unfold mbind at 1, M_bind at 1, log_error at 1, emit at 1, modify at 1.
    apply IH.
Qed.

(** When the endpoint never returns a record, the loop gathers none. *)
Lemma fetch_weeks_no_data start_dt end_dt records_per_day max_records offsets :
  (∀ req n b n', mta_get req n = (Ok b, n') → b = []) →
  ∀ w, ∃ w',
    fetch_weeks start_dt end_dt records_per_day max_records offsets [] w
    = (Ok [], w').
Proof.
  intros Hnone. induction offsets as [|off rest IH]; intros w; [by eexists|].
  cbn [fetch_weeks].
  unfold mbind at 1, M_bind at 1, try_except at 1.
  unfold mbind at 1, M_bind at 1.
  destruct (fetch_with_retry _ None None w) as [[batch|e] w1] eqn:Hf.
  - assert (Hb : match batch with
                 | Some ((_ :: _) as b) => [] ++ b
                 | _ => []
                 end = @nil record).
    { destruct batch as [[|rec b]|]; try done.
      unfold fetch_with_retry in Hf.
      apply retry_loop_value in Hf as (n & n' & Hcall).
      unfold ridership_fetch in Hcall. by apply Hnone in Hcall. }
    rewrite Hb. destruct (max_records <=? _).
    + exists w1. unfold py_slice_to. simpl.
      by destruct (0 <=? max_records); rewrite take_nil.
    + unfold mbind at 1, M_bind at 1, sleep at 1. rewrite half_second.
      unfold emit, modify. apply IH.
  - unfold mbind at 1, M_bind at 1, log_error at 1, emit at 1, modify at 1.
    apply IH.
Qed.


End Extractor.


(** ** The columns of the merged table *)

Lemma M_bind_inv {S A B} (m : M S A) (f : A → M S B) s b s' :
  (m ≫= f) s = (Ok b, s') → ∃ a s1, m s = (Ok a, s1) ∧ f a s1 = (Ok b, s').
Proof.
  unfold mbind, M_bind. destruct (m s) as [[a|e] s1]; [|done].
  intros Hf. by exists a, s1.
Qed.

Lemma lift_inv {S A} (r : result A) (s : S) a s' :
  lift r s = (Ok a, s') → r = Ok a ∧ s' = s.
Proof. unfold lift. by intros [= -> ->]. Qed.

(** The validator keeps the columns. *)
Lemma validate_columns df name qm c qm' :
  validate_data_quality df name qm = (Ok c, qm') → columns c = columns df.
Proof.
  unfold validate_data_quality. destruct (df_empty df).
  - unfold mbind, M_bind, modify, mret, M_ret. by intros [= <- _].
  - intros (d1 & s1 & [Hd ->]%lift_inv & Hrest)%M_bind_inv.
    assert (Hd1 : d1 = mkDF (columns df)
                         (filter (λ r, get r "date" ≠ CNull) (rows df))).
    { destruct (decide ("date" ∈ columns df)) as [Hin|Hout].
      - rewrite dropna_date in Hd by done. by injection Hd as <-.
      - unfold dropna in Hd. rewrite filter_cons in Hd.
        by rewrite decide_True in Hd. }
    subst d1.
    apply M_bind_inv in Hrest as (range & s2 & _ & Hrest).
    unfold mbind, M_bind, modify, mret, M_ret in Hrest.
    injection Hrest as <- _. apply cleaned_rows.
Qed.

Lemma merged_keeps_right_label key left right ls rs m c :
  pd_merge key left right ls rs = Ok m →
  c ∈ columns right → c ≠ key → c ∉ columns left → c ∈ columns m.
Proof.
  intros (_ & _ & _ & -> & _)%pd_merge_Ok Hc Hk Hl.
  apply elem_of_app. right. apply list_elem_of_fmap. exists c. split.
  - unfold suffixed. rewrite decide_False; [done|].
    intros [_ [_ ?]%elem_of_others]%list_elem_of_filter. done.
  - by apply elem_of_others.
Qed.

Lemma run_steps_label steps s df df' :
  run_steps steps df = Ok df' → s ∈ steps →
  Forall (λ g, g ∈ columns df) (guard s) → label s ∈ columns df'.
Proof.
  revert df. induction steps as [|s0 steps IH]; intros df; simpl.
  - by intros _ ?%elem_of_nil.
  - intros (d1 & H1 & H2)%bind_Ok [->|Hs]%elem_of_cons Hg.
    + eapply run_steps_mem; [done|].
      apply run_step_Ok in H1 as [[_ [-> _]%assign_Ok]|[? _]]; [|done].
      apply elem_of_add_col. by left.
    + eapply IH; [done..|]. eapply Forall_impl; [done|].
      intros g. apply (run_step_mem _ _ _ g H1).
Qed.

Lemma add_rolling_averages_columns df df' k :
  add_rolling_averages df = Ok df' → k ∈ columns df → k ∈ columns df'.
Proof.
  unfold add_rolling_averages.
  intros (d1 & H1 & (a7 & _ & (a30 & _ & [= <-])%bind_Ok)%bind_Ok)%bind_Ok Hk.
  unfold sort_values in H1. repeat case_decide; try done.
  injection H1 as <-. simpl. apply elem_of_add_col. right.
  apply elem_of_add_col. by right.
Qed.

Section Columns.
Context `{Readers}.

Lemma merge_on_date_keeps_right_label A B m c :
  merge_on_date A B = Ok m →
  c ∈ columns B → c ≠ "date" → c ∉ columns A → c ∈ columns m.
Proof.
  unfold merge_on_date.
  intros (A' & [HA _]%assign_Ok & (B' & [HB _]%assign_Ok & Hm)%bind_Ok)%bind_Ok
    Hc Hk Hl.
  eapply merged_keeps_right_label; [done| | done |].
  - rewrite HB. apply elem_of_add_col. by right.
  - rewrite HA. intros [?|?]%elem_of_add_col; done.
Qed.

(** A merged table with rows has the converted columns when the weather
    table brings its two raw columns and the ridership table has none of
    that name. *)
Lemma transform_converted_columns R W qm m qm' :
  transform_and_merge R W qm = (Ok m, qm') → rows m ≠ [] →
  "temperature_mean" ∈ columns W → "precipitation" ∈ columns W →
  ("temperature_mean" ∉ columns R) → ("precipitation" ∉ columns R) →
  "temperature_f" ∈ columns m ∧ "precipitation_in" ∈ columns m.
Proof.
  unfold transform_and_merge.
  intros (cR & s1 & HR & (cW & s2 & HW & Hrest)%M_bind_inv)%M_bind_inv
    Hrows HWt HWp HRt HRp.
  apply validate_columns in HR, HW.
  destruct (df_empty cR || df_empty cW).
  { injection Hrest as <- _. done. }
  apply M_bind_inv in Hrest as (mg & s3 & [Hmg ->]%lift_inv & Hrest).
  assert (Ht : "temperature_mean" ∈ columns mg).
  { eapply merge_on_date_keeps_right_label; [done| |done|]; by rewrite ?HW, ?HR. }
  assert (Hp : "precipitation" ∈ columns mg).
  { eapply merge_on_date_keeps_right_label; [done| |done|]; by rewrite ?HW, ?HR. }
  destruct (df_empty mg) eqn:Hempty.
  { injection Hrest as <- _. unfold df_empty in Hempty.
    destruct (rows mg); [done|]. destruct (columns mg); [|done].
    by apply elem_of_nil in Ht. }
  apply M_bind_inv in Hrest as (d1 & s4 & [Hd1 ->]%lift_inv & Hrest).
  apply M_bind_inv in Hrest as (d2 & s5 & [Hd2 ->]%lift_inv & Hrest).
  apply M_bind_inv in Hrest as (d3 & s6 & [Hd3 ->]%lift_inv & Hrest).
  injection Hrest as <- _.
  apply assign_Ok in Hd1 as [Hc1 _].
  assert (Hdate : "date" ∈ columns d1).
  { rewrite Hc1. apply elem_of_add_col. by left. }
  rewrite add_derived_features_steps in Hd2 by done.
  assert (Hk : ∀ k, k ∈ columns d2 → k ∈ columns d3).
  { intros k Hk. apply when_col_Ok in Hd3 as [[_ Hd3]|[_ ->]]; [|done].
    by eapply add_rolling_averages_columns. }
  split; apply Hk.
  - apply (run_steps_label feature_steps
             (mkStep ["temperature_mean"] "temperature_f"
                (λ r, num1 celsius_to_fahrenheit (get r "temperature_mean")))
             d1 d2 Hd2).
    + unfold feature_steps, conversion_steps. set_solver.
    + simpl. constructor; [|done]. rewrite Hc1. apply elem_of_add_col. by right.
  - apply (run_steps_label feature_steps
             (mkStep ["precipitation"] "precipitation_in"
                (λ r, num1 mm_to_inches (get r "precipitation")))
             d1 d2 Hd2).
    + unfold feature_steps, conversion_steps. set_solver.
    + simpl. constructor; [|done]. rewrite Hc1. apply elem_of_add_col. by right.
Qed.

End Columns.

(** ** The cache loader *)

Lemma derive_dt_column_rows src dst f df df' :
  derive_dt_column src dst f df = Ok df' → rows df ≠ [].
Proof.
  unfold derive_dt_column. case_decide; [|done]. by destruct (rows df).
Qed.

Section Loader.
Context `{Readers} {Net : Type} `{Services Net}.

Lemma precompute_filters_rows m out :
  precompute_filters m = Ok out → rows m ≠ [].
Proof.
  unfold precompute_filters.
  intros (d1 & H1 & (d2 & H2 & _)%bind_Ok)%bind_Ok.
  apply derive_dt_column_rows in H2.
  unfold derive_column in H1. case_decide; [|done].
  apply assign_Ok in H1 as [_ Hr]. apply Forall2_length in Hr.
  destruct (rows m); [|done]. by destruct (rows d1).
Qed.

Lemma fetch_weather_data_columns lat lon start_date end_date w weather w' :
  fetch_weather_data lat lon start_date end_date w = (Ok weather, w') →
  columns weather = ["date"; "temperature_mean"; "precipitation"; "windspeed"].
Proof.
  unfold fetch_weather_data.
  intros (data & s1 & _ & Hrest)%M_bind_inv.
  destruct data as [data|]; [|done].
  apply M_bind_inv in Hrest as (dates & s2 & _ & Hrest).
  apply M_bind_inv in Hrest as (df & s3 & [Hdf ->]%lift_inv & Hrest).
  apply M_bind_inv in Hrest as (dmin & s4 & _ & Hrest).
  unfold frame_of_arrays in Hdf. case_decide; [|done]. injection Hdf as <-.
  destruct dmin; try done; by injection Hrest as <- _.
Qed.

(** A cache with both converted columns is read and nothing else is done. *)
Lemma load_data_reuses w cached :
  cache_file w = Some cached →
  "temperature_f" ∈ columns cached → "precipitation_in" ∈ columns cached →
  load_data w
  = (match precompute_filters cached with
     | Ok df => Ok (df, ∅)
     | Raise e => Raise e
     end, w).
Proof.
  intros Hc Ht Hp. unfold load_data.
  unfold mbind at 1, M_bind at 1, gets at 1. rewrite Hc.
  rewrite (bool_decide_eq_false_2 ("temperature_f" ∉ columns cached)) by tauto.
  rewrite (bool_decide_eq_false_2 ("precipitation_in" ∉ columns cached)) by tauto.
  simpl. unfold mbind, M_bind, gets, mret, M_ret, lift. rewrite Hc. simpl.
  by destruct (precompute_filters cached).
Qed.

(** A cache without one of them is removed, and the loader goes on as
    without a cache. *)
Lemma load_data_discards w cached :
  cache_file w = Some cached →
  ("temperature_f" ∉ columns cached) ∨ ("precipitation_in" ∉ columns cached) →
  load_data w = load_data (mkWorld (net w) (trace w) None).
Proof.
  intros Hc Hstale. unfold load_data.
  unfold mbind at 1, M_bind at 1, gets at 1. rewrite Hc.
  assert (Hneeds : bool_decide ("temperature_f" ∉ columns cached)
                   || bool_decide ("precipitation_in" ∉ columns cached) = true).
  { destruct Hstale as [Hs|Hs].
    - by rewrite (bool_decide_eq_true_2 _ Hs).
    - rewrite (bool_decide_eq_true_2 _ Hs). by rewrite orb_true_r. }
  rewrite Hneeds.
  unfold mbind at 1, M_bind at 1. unfold mbind at 1, M_bind at 1.
  unfold remove_cache_file at 1, modify at 1.
  unfold mret at 1, M_ret at 1.
  unfold mbind at 1, M_bind at 1, gets at 1. simpl cache_file.
  unfold mbind at 3, M_bind at 3, gets at 1. simpl cache_file.
  unfold mbind at 3, M_bind at 3, mret at 2, M_ret at 2.
  unfold mbind at 3, M_bind at 3, gets at 1. simpl cache_file.
  reflexivity.
Qed.

(** What the loader returns when it starts without a cache. *)
Lemma load_data_fresh w out w' :
  cache_file w = None →
  load_data w = (Ok out, w') →
  ∃ ridership weather m w1 w2,
    fetch_ridership_data (Some 19358) (Some 20088) 600000 w = (Ok ridership, w1)
    ∧ fetch_weather_data (qd 407128 10000) (qd (-740060) 10000)
        (Some 19358) (Some 20088) w1 = (Ok weather, w2)
    ∧ transform_and_merge ridership weather ∅ = (Ok m, out.2)
    ∧ w' = mkWorld (net w2) (trace w2) (Some m)
    ∧ precompute_filters m = Ok out.1
    ∧ (("temperature_mean" ∉ columns ridership) →
       ("precipitation" ∉ columns ridership) →
       "temperature_f" ∈ columns m ∧ "precipitation_in" ∈ columns m).
Proof.
  intros Hc. unfold load_data.
  unfold mbind at 1, M_bind at 1, gets at 1. rewrite Hc.
  unfold mbind at 1, M_bind at 1, mret at 1, M_ret at 1.
  unfold mbind at 1, M_bind at 1, gets at 1. rewrite Hc.
  intros ([m qm] & s1 & Hfresh & Hrest)%M_bind_inv.
  apply M_bind_inv in Hrest as (mf & s2 & [Hpre ->]%lift_inv & Hrest).
  injection Hrest as <- <-. simpl.
  unfold fetch_fresh in Hfresh.
  apply M_bind_inv in Hfresh as (ridership & w1 & Hrid & Hfresh).
  apply M_bind_inv in Hfresh as (weather & w2 & Hwea & Hfresh).
  apply M_bind_inv in Hfresh as ([m' qm'] & w3 & Hrun & Hfresh).
  unfold mbind, M_bind, write_cache_file, modify, mret, M_ret in Hfresh.
  injection Hfresh as -> -> <-.
  unfold run_transformer in Hrun.
  destruct (transform_and_merge ridership weather ∅) as [[m0|e] qm0] eqn:Htr;
    [|done].
  injection Hrun as -> -> <-.
  exists ridership, weather, m, w1, w2. simpl.
  split; [done|]. split; [done|]. split; [done|]. split; [done|].
  split; [done|]. intros Hrt Hrp.
  pose proof (fetch_weather_data_columns _ _ _ _ _ _ _ Hwea) as Hcols.
  eapply transform_converted_columns; [done| | | |done|done].
  - by eapply precompute_filters_rows.
  - rewrite Hcols. set_solver.
  - rewrite Hcols. set_solver.
Qed.


End Loader.



(** ** The deriver on the cold and wet day *)


